(** * KubeJobSub / AzureBatch.py: a shallow embedding and its properties

    The program is a script that drives two remote services (blob storage
    and Azure Batch) and the local file system.  Strings are modelled as
    sequences of one-byte characters ([string]); every call to a remote
    service or to the operating system is recorded in a trace, and what the
    outside world answers is taken from an environment ([Env]).  So is
    what [str.lower] makes of a string: its case table is Python's, not
    the program's, and no property below depends on it. *)

From Stdlib Require Import String Ascii List ZArith Bool Lia.
From stdpp Require Import base strings list gmap.
Import ListNotations.

Open Scope string_scope.
Open Scope list_scope.

(** ** Python string primitives *)

Module PyStr.

(** Characters for which [str.isspace] holds (one-byte range). *)
Definition is_space (c : ascii) : bool :=
  let n := nat_of_ascii c in
  (Nat.leb 9 n && Nat.leb n 13) || (Nat.leb 28 n && Nat.leb n 32).

Definition lower_char (c : ascii) : ascii :=
  let n := nat_of_ascii c in
  if Nat.leb 65 n && Nat.leb n 90 then ascii_of_nat (n + 32) else c.

Definition upper_char (c : ascii) : ascii :=
  let n := nat_of_ascii c in
  if Nat.leb 97 n && Nat.leb n 122 then ascii_of_nat (n - 32) else c.

Fixpoint map_chars (f : ascii -> ascii) (s : string) : string :=
  match s with
  | EmptyString => EmptyString
  | String c s' => String (f c) (map_chars f s')
  end.

(** [s.lower()] and [s.upper()] of a string of ASCII characters.  The
    program applies [upper] to the names of attributes only; what
    [lower] gives for a job name, which can hold any character, is left
    to the environment. *)
Definition ascii_lower : string -> string := map_chars lower_char.
Definition upper : string -> string := map_chars upper_char.

Definition is_empty (s : string) : bool :=
  match s with EmptyString => true | _ => false end.

(** [s.rstrip()] *)
Fixpoint rstrip (s : string) : string :=
  match s with
  | EmptyString => EmptyString
  | String c s' =>
      let r := rstrip s' in
      if is_space c && is_empty r then EmptyString else String c r
  end.

(** [s.startswith(p)] *)
Fixpoint startswith (p s : string) : bool :=
  match p, s with
  | EmptyString, _ => true
  | String a p', String b s' => Ascii.eqb a b && startswith p' s'
  | String _ _, EmptyString => false
  end.

(** [s.endswith("/")] *)
Fixpoint ends_with_char (c : ascii) (s : string) : bool :=
  match s with
  | EmptyString => false
  | String a EmptyString => Ascii.eqb a c
  | String _ s' => ends_with_char c s'
  end.

(** [c in s] for a one-character [c] *)
Fixpoint contains_char (c : ascii) (s : string) : bool :=
  match s with
  | EmptyString => false
  | String a s' => Ascii.eqb a c || contains_char c s'
  end.

Definition snoc (s : string) (c : ascii) : string := s +:+ String c EmptyString.

(** [s.split(sep)] for a non-empty [sep]: the pieces between the
    occurrences of [sep], found from the left and not overlapping.
    [skip] counts the characters of a separator still to be passed over,
    [cur] is the piece being read. *)
Fixpoint split_aux (sep : string) (skip : nat) (cur s : string) : list string :=
  match s with
  | EmptyString => [cur]
  | String c s' =>
      match skip with
      | S k => split_aux sep k cur s'
      | O =>
          if startswith sep s
          then cur :: split_aux sep (String.length sep - 1) EmptyString s'
          else split_aux sep 0 (snoc cur c) s'
      end
  end.

Definition split (sep s : string) : list string := split_aux sep 0 EmptyString s.

(** [s.split()]: the maximal runs of characters that are not white space. *)
Fixpoint split_ws_aux (cur s : string) : list string :=
  match s with
  | EmptyString => if is_empty cur then [] else [cur]
  | String c s' =>
      if is_space c
      then (if is_empty cur then split_ws_aux EmptyString s'
            else cur :: split_ws_aux EmptyString s')
      else split_ws_aux (snoc cur c) s'
  end.

Definition split_ws (s : string) : list string := split_ws_aux EmptyString s.

(** [str(x)] of a value that is a string or [None], as [format] prints it. *)
Definition str (x : option string) : string :=
  match x with Some s => s | None => "None" end.

End PyStr.

(** ** [os.path] (the POSIX flavour) *)

Module OsPath.
Import PyStr.

Definition slash : ascii := "/"%char.

(** The string cut after its last slash: [Some (p[:i], p[i:])] with
    [i = p.rfind('/') + 1], or [None] when there is no slash. *)
Fixpoint cut_last_slash (p : string) : option (string * string) :=
  match p with
  | EmptyString => None
  | String c p' =>
      match cut_last_slash p' with
      | Some (h, t) => Some (String c h, t)
      | None => if Ascii.eqb c slash then Some (String c EmptyString, p') else None
      end
  end.

Fixpoint all_slashes (s : string) : bool :=
  match s with
  | EmptyString => true
  | String c s' => Ascii.eqb c slash && all_slashes s'
  end.

(** [s.rstrip('/')] *)
Fixpoint rstrip_slash (s : string) : string :=
  match s with
  | EmptyString => EmptyString
  | String c s' =>
      let r := rstrip_slash s' in
      if Ascii.eqb c slash && is_empty r then EmptyString else String c r
  end.

(** [os.path.split(p)] *)
Definition split (p : string) : string * string :=
  match cut_last_slash p with
  | None => (EmptyString, p)
  | Some (head, tail) =>
      (if negb (is_empty head) && negb (all_slashes head)
       then rstrip_slash head else head, tail)
  end.

(** [os.path.basename(p)] *)
Definition basename (p : string) : string := snd (split p).

(** One step of [os.path.join]: an absolute component replaces what was
    joined so far. *)
Definition join2 (path b : string) : string :=
  if startswith "/" b then b
  else if is_empty path || ends_with_char slash path then path +:+ b
  else path +:+ "/" +:+ b.

(** [os.path.join(a, *p)] *)
Definition join (a : string) (p : list string) : string := fold_left join2 p a.

(** The components of a path, without the empty ones and the dots, so
    that two spellings of one directory compare equal; an absolute path
    starts with the component ["/"].  ([..] is kept as a component.) *)
Definition components (p : string) : list string :=
  (if startswith "/" p then ["/"] else []) ++
  filter (fun c => negb (is_empty c) && negb (String.eqb c ".")) (PyStr.split "/" p).

End OsPath.

(** ** The data the program passes to the services *)

(** [azure.batch.models.ResourceFile] *)
Record ResourceFile := {
  file_path : string;
  blob_source : string;
}.

(** [OutputFileUploadCondition] *)
Inductive OutputFileUploadCondition := task_success | task_failure | task_completion.

(** [OutputFile], with its [OutputFileBlobContainerDestination] and its
    [OutputFileUploadOptions] flattened into the record. *)
Record OutputFile := {
  file_pattern : string;
  container_url : string;
  destination_path : option string;
  upload_condition : OutputFileUploadCondition;
}.

Record ImageReference := {
  publisher : string;
  offer : string;
  sku : string;
  version : string;
}.

(** [PoolAddParameter], with its [VirtualMachineConfiguration] flattened. *)
Record PoolAddParameter := {
  pool_id : option string;
  image_reference : ImageReference;
  node_agent_sku_id : string;
  pool_vm_size : string;
  target_dedicated_nodes : Z;
  target_low_priority_nodes : Z;
}.

(** [JobAddParameter(id, PoolInformation(pool_id))] *)
Record JobAddParameter := {
  job_id : option string;
  job_pool_id : option string;
}.

Record TaskAddParameter := {
  task_id : string;
  command_line : string;
  resource_files : list ResourceFile;
  output_files : list OutputFile;
}.

(** [batchmodels.TaskState] *)
Inductive TaskState := active | preparing | running | completed.

(** A task as [task.list] reports it. *)
Record CloudTask := {
  cloud_task_id : string;
  state : TaskState;
  exit_code : option Z;
}.

Inductive BlobPermissions := READ | WRITE.

Record Blob := { name : string }.

(** ** Calls to the outside world *)

Inductive Event :=
| LogInfo (msg : string)
| ReadLines (config_file : string)
| CreateContainer (container_name : string)
| CreateBlobFromPath (container_name blob_name local_path : string)
| GenerateContainerSas (container_name : string) (permission : BlobPermissions) (hours : Z)
| PoolAdd (pool : PoolAddParameter)
| JobAdd (job : JobAddParameter)
| TaskAdd (job : option string) (task : TaskAddParameter)
| TaskList (job : option string)
| Sleep (seconds : Z)
| JobDelete (job : option string)
| PoolDelete (pool : option string)
| ListBlobs (container_name : string)
| Makedirs (path : string)
| GetBlobToPath (container_name blob_name local_path : string)
| DeleteContainer (container_name : string).

(** The exceptions the program can end with.  The three [AttributeError]s
    are told apart by what they report; [ValueError_missing_account] is
    the [ValueError] of the storage client that is given no account. *)
Inductive exn :=
| IndexError
| AttributeError_unrecognized (config_file : string) (options : list string)
| AttributeError_missing (missing : list string)
| AttributeError_NoneType (attr : string)
| FileExistsError (path : string)
| ValueError_missing_account
| CallFailed (call : Event).

(** What the outside world answers.  Every answer may depend on the calls
    made so far. *)
Record Env := {
  raises : list Event -> Event -> bool;
  tasks_listed : list Event -> option string -> list CloudTask;
  blobs_listed : list Event -> string -> list Blob;
  glob_result : string -> list string;
  sas_token : list Event -> string -> BlobPermissions -> string;
  make_blob_url : string -> string -> string -> string;
  file_lines : string -> list string;
  lower : string -> string;           (* [str.lower] *)
}.

(** ** The state of a run *)

(** A reference to a Python list object. *)
Definition ref := nat.

Record World := {
  trace : list Event;                 (* the calls made so far, oldest first *)
  heap : list (list ResourceFile);    (* the list objects, by reference *)
  dirs : gset (list string);          (* the local directories, by components *)
}.

Definition record_call (w : World) (ev : Event) : World :=
  {| trace := trace w ++ [ev]; heap := heap w; dirs := dirs w |}.

Inductive Outcome (A : Type) :=
| Ok (a : A)
| Raise (e : exn)
| OutOfFuel.
Arguments Ok {A} a.
Arguments Raise {A} e.
Arguments OutOfFuel {A}.

(** A computation: from a world to an outcome and the world it leaves. *)
Definition M (A : Type) : Type := World -> Outcome A * World.

Definition ret {A} (a : A) : M A := fun w => (Ok a, w).

Definition bind {A B} (m : M A) (f : A -> M B) : M B :=
  fun w =>
    match m w with
    | (Ok a, w') => f a w'
    | (Raise e, w') => (Raise e, w')
    | (OutOfFuel, w') => (OutOfFuel, w')
    end.

Definition raise {A} (e : exn) : M A := fun w => (Raise e, w).

Definition out_of_fuel {A} : M A := fun w => (OutOfFuel, w).

Notation "'let*' x := m 'in' k" := (bind m (fun x => k))
  (at level 10, x name, m at level 100, k at level 200).
Notation "m ';;;' k" := (bind m (fun _ => k))
  (at level 100, k at level 200, right associativity).

(** [for x in l: body x] *)
Fixpoint for_each {A} (l : list A) (body : A -> M unit) : M unit :=
  match l with
  | [] => ret tt
  | x :: l' => body x ;;; for_each l' body
  end.

(** A call that cannot fail in this model ([logging.info], [time.sleep]). *)
Definition emit (ev : Event) : M unit := fun w => (Ok tt, record_call w ev).

(** [l = list()] *)
Definition new_list : M ref :=
  fun w => (Ok (length (heap w)),
            {| trace := trace w; heap := heap w ++ [[]]; dirs := dirs w |}).

(** [l.append(x)]: the object itself changes, so every holder of the
    reference sees the new element.  A reference the program did not
    obtain from [new_list] cannot occur; the list is then left alone. *)
Definition list_append (l : ref) (x : ResourceFile) : M unit :=
  fun w => (Ok tt,
            match heap w !! l with
            | Some v => {| trace := trace w; heap := <[l := v ++ [x]]> (heap w); dirs := dirs w |}
            | None => w
            end).

(** Reading a list object (an absent reference reads as empty). *)
Definition list_read (l : ref) : M (list ResourceFile) :=
  fun w => (Ok (default [] (heap w !! l)), w).

(** The non-empty prefixes of a path's components: the directories that
    [os.makedirs] leaves in place. *)
Definition ancestors (p : list string) : list (list string) :=
  map (fun n => take n p) (seq 1 (length p)).

Definition is_root (p : list string) : bool :=
  match p with
  | [] => true
  | [c] => String.eqb c "/"
  | _ => false
  end.

Definition isdir_in (ds : gset (list string)) (path : string) : bool :=
  negb (PyStr.is_empty path)
  && (is_root (OsPath.components path) || bool_decide (OsPath.components path ∈ ds)).

(** [os.path.isdir(path)] *)
Definition isdir (path : string) : M bool := fun w => (Ok (isdir_in (dirs w) path), w).

(** ** The [AzureBatch] object *)

Record AzureBatch := {
  batch_account_name : option string;
  batch_account_key : option string;
  batch_account_url : option string;
  storage_account_name : option string;
  storage_account_key : option string;
  job_name : option string;
  command : option string;
  vm_image : option string;
  vm_size : string;
  input : list string;
  output : list string;
}.

(** [AzureBatch.__init__] *)
Definition AzureBatch_init : AzureBatch :=
  {| batch_account_name := None;
     batch_account_key := None;
     batch_account_url := None;
     storage_account_name := None;
     storage_account_key := None;
     job_name := None;
     command := None;
     vm_image := None;
     vm_size := "Standard_D16s_v3";
     input := [];
     output := [] |}.

(** Attribute assignments, one per attribute. *)
Definition set_batch_account_name (v : string) (a : AzureBatch) : AzureBatch :=
  {| batch_account_name := Some v; batch_account_key := batch_account_key a;
     batch_account_url := batch_account_url a; storage_account_name := storage_account_name a;
     storage_account_key := storage_account_key a; job_name := job_name a;
     command := command a; vm_image := vm_image a; vm_size := vm_size a;
     input := input a; output := output a |}.

Definition set_batch_account_key (v : string) (a : AzureBatch) : AzureBatch :=
  {| batch_account_name := batch_account_name a; batch_account_key := Some v;
     batch_account_url := batch_account_url a; storage_account_name := storage_account_name a;
     storage_account_key := storage_account_key a; job_name := job_name a;
     command := command a; vm_image := vm_image a; vm_size := vm_size a;
     input := input a; output := output a |}.

Definition set_batch_account_url (v : string) (a : AzureBatch) : AzureBatch :=
  {| batch_account_name := batch_account_name a; batch_account_key := batch_account_key a;
     batch_account_url := Some v; storage_account_name := storage_account_name a;
     storage_account_key := storage_account_key a; job_name := job_name a;
     command := command a; vm_image := vm_image a; vm_size := vm_size a;
     input := input a; output := output a |}.

Definition set_storage_account_name (v : string) (a : AzureBatch) : AzureBatch :=
  {| batch_account_name := batch_account_name a; batch_account_key := batch_account_key a;
     batch_account_url := batch_account_url a; storage_account_name := Some v;
     storage_account_key := storage_account_key a; job_name := job_name a;
     command := command a; vm_image := vm_image a; vm_size := vm_size a;
     input := input a; output := output a |}.

Definition set_storage_account_key (v : string) (a : AzureBatch) : AzureBatch :=
  {| batch_account_name := batch_account_name a; batch_account_key := batch_account_key a;
     batch_account_url := batch_account_url a; storage_account_name := storage_account_name a;
     storage_account_key := Some v; job_name := job_name a;
     command := command a; vm_image := vm_image a; vm_size := vm_size a;
     input := input a; output := output a |}.

Definition set_job_name (v : string) (a : AzureBatch) : AzureBatch :=
  {| batch_account_name := batch_account_name a; batch_account_key := batch_account_key a;
     batch_account_url := batch_account_url a; storage_account_name := storage_account_name a;
     storage_account_key := storage_account_key a; job_name := Some v;
     command := command a; vm_image := vm_image a; vm_size := vm_size a;
     input := input a; output := output a |}.

Definition set_command (v : string) (a : AzureBatch) : AzureBatch :=
  {| batch_account_name := batch_account_name a; batch_account_key := batch_account_key a;
     batch_account_url := batch_account_url a; storage_account_name := storage_account_name a;
     storage_account_key := storage_account_key a; job_name := job_name a;
     command := Some v; vm_image := vm_image a; vm_size := vm_size a;
     input := input a; output := output a |}.

Definition set_vm_image (v : string) (a : AzureBatch) : AzureBatch :=
  {| batch_account_name := batch_account_name a; batch_account_key := batch_account_key a;
     batch_account_url := batch_account_url a; storage_account_name := storage_account_name a;
     storage_account_key := storage_account_key a; job_name := job_name a;
     command := command a; vm_image := Some v; vm_size := vm_size a;
     input := input a; output := output a |}.

Definition set_vm_size (v : string) (a : AzureBatch) : AzureBatch :=
  {| batch_account_name := batch_account_name a; batch_account_key := batch_account_key a;
     batch_account_url := batch_account_url a; storage_account_name := storage_account_name a;
     storage_account_key := storage_account_key a; job_name := job_name a;
     command := command a; vm_image := vm_image a; vm_size := v;
     input := input a; output := output a |}.

(** [azurebatch.input.append(v)] *)
Definition append_input (v : string) (a : AzureBatch) : AzureBatch :=
  {| batch_account_name := batch_account_name a; batch_account_key := batch_account_key a;
     batch_account_url := batch_account_url a; storage_account_name := storage_account_name a;
     storage_account_key := storage_account_key a; job_name := job_name a;
     command := command a; vm_image := vm_image a; vm_size := vm_size a;
     input := input a ++ [v]; output := output a |}.

(** [azurebatch.output.append(v)] *)
Definition append_output (v : string) (a : AzureBatch) : AzureBatch :=
  {| batch_account_name := batch_account_name a; batch_account_key := batch_account_key a;
     batch_account_url := batch_account_url a; storage_account_name := storage_account_name a;
     storage_account_key := storage_account_key a; job_name := job_name a;
     command := command a; vm_image := vm_image a; vm_size := vm_size a;
     input := input a; output := output a ++ [v] |}.

(** ** Reading the configuration *)

(** The body of the loop of [parse_configuration_file] after the two
    index expressions: the chain of [if]/[elif] on the option's name. *)
Definition set_option (option parameter : string)
    (st : AzureBatch * list string) : AzureBatch * list string :=
  let '(azurebatch, unrecognized_options) := st in
  if String.eqb option "BATCH_ACCOUNT_NAME" then (set_batch_account_name parameter azurebatch, unrecognized_options)
  else if String.eqb option "BATCH_ACCOUNT_KEY" then (set_batch_account_key parameter azurebatch, unrecognized_options)
  else if String.eqb option "BATCH_ACCOUNT_URL" then (set_batch_account_url parameter azurebatch, unrecognized_options)
  else if String.eqb option "STORAGE_ACCOUNT_NAME" then (set_storage_account_name parameter azurebatch, unrecognized_options)
  else if String.eqb option "STORAGE_ACCOUNT_KEY" then (set_storage_account_key parameter azurebatch, unrecognized_options)
  else if String.eqb option "JOB_NAME" then (set_job_name parameter azurebatch, unrecognized_options)
  else if String.eqb option "COMMAND" then (set_command parameter azurebatch, unrecognized_options)
  else if String.eqb option "INPUT" then (append_input parameter azurebatch, unrecognized_options)
  else if String.eqb option "OUTPUT" then (append_output parameter azurebatch, unrecognized_options)
  else if String.eqb option "VM_IMAGE" then (set_vm_image parameter azurebatch, unrecognized_options)
  else if String.eqb option "VM_SIZE" then (set_vm_size parameter azurebatch, unrecognized_options)
  else (azurebatch, unrecognized_options ++ [option]).

(** The loop over the lines: [x[0]] and [x[1]] raise [IndexError] when the
    list is too short. *)
Fixpoint parse_lines (config_options : list string)
    (st : AzureBatch * list string) : exn + AzureBatch * list string :=
  match config_options with
  | [] => inr st
  | config_option :: rest =>
      let config_option := PyStr.rstrip config_option in
      let x := PyStr.split ":=" config_option in
      match x !! 0%nat with
      | None => inl IndexError
      | Some option =>
          match x !! 1%nat with
          | None => inl IndexError
          | Some parameter => parse_lines rest (set_option option parameter st)
          end
      end
  end.

(** What [parse_configuration_file] does with the lines it has read. *)
Definition parse_configuration (config_file : string) (config_options : list string)
    : exn + AzureBatch :=
  match parse_lines config_options (AzureBatch_init, []) with
  | inl e => inl e
  | inr (azurebatch, unrecognized_options) =>
      if Nat.ltb 0 (length unrecognized_options)
      then inl (AttributeError_unrecognized config_file unrecognized_options)
      else inr azurebatch
  end.

(** The values [vars] can hold here. *)
Inductive PyVal :=
| VNone
| VStr (s : string)
| VList (l : list string).

Definition of_option (x : option string) : PyVal :=
  match x with Some s => VStr s | None => VNone end.

(** [vars(azurebatch_object)], in the order [__init__] sets the attributes. *)
Definition vars (a : AzureBatch) : list (string * PyVal) :=
  [ ("batch_account_name", of_option (batch_account_name a));
    ("batch_account_key", of_option (batch_account_key a));
    ("batch_account_url", of_option (batch_account_url a));
    ("storage_account_name", of_option (storage_account_name a));
    ("storage_account_key", of_option (storage_account_key a));
    ("job_name", of_option (job_name a));
    ("command", of_option (command a));
    ("vm_image", of_option (vm_image a));
    ("vm_size", VStr (vm_size a));
    ("input", VList (input a));
    ("output", VList (output a)) ].

Definition missing_attributes (a : AzureBatch) : list string :=
  fold_left
    (fun missing (attr : string * PyVal) =>
       match snd attr with
       | VNone => missing ++ [PyStr.upper (fst attr)]
       | VList l => if Nat.eqb (length l) 0 then missing ++ [PyStr.upper (fst attr)] else missing
       | VStr _ => missing
       end)
    (vars a) [].

(** ** The command line *)

Record Args := {
  configuration_file : string;
  download_output_files : bool;
}.

(** [parser.parse_args()] for [-c config_file], with or without [-d]:
    [--download_output_files] has [default=True] and
    [action='store_false'], so giving the flag stores [False]. *)
Definition parse_args (config_file : string) (d_flag_given : bool) : Args :=
  {| configuration_file := config_file;
     download_output_files := if d_flag_given then false else true |}.

(** ** The program *)

Definition dquote : string := String (ascii_of_nat 34) EmptyString.

(** [BlockBlobService(account_key=..., account_name=...)]: the client of
    the storage account.  Making it calls no service; the library refuses
    an account name that is [None] or empty with a [ValueError], and
    takes any key, [None] too. *)
Definition BlockBlobService (account_key account_name : option string) : M unit :=
  match account_name with
  | Some (String _ _) => ret tt
  | _ => raise ValueError_missing_account
  end.

Section Program.

Variable env : Env.

(** A call to a service or to the operating system: it is recorded,
    and it either raises or returns the world's answer. *)
Definition call {A} (ev : Event) (answer : list Event -> A) : M A :=
  fun w =>
    if raises env (trace w) ev
    then (Raise (CallFailed ev), record_call w ev)
    else (Ok (answer (trace w)), record_call w ev).

Definition call_ (ev : Event) : M unit := call ev (fun _ => tt).

(** [os.makedirs(path)]: raises when the directory is there already. *)
Definition makedirs (path : string) : M unit :=
  fun w =>
    if isdir_in (dirs w) path
    then (Raise (FileExistsError path), record_call w (Makedirs path))
    else if raises env (trace w) (Makedirs path)
    then (Raise (CallFailed (Makedirs path)), record_call w (Makedirs path))
    else (Ok tt,
          {| trace := trace w ++ [Makedirs path];
             heap := heap w;
             dirs := list_to_set (ancestors (OsPath.components path)) ∪ dirs w |}).

(** [x.lower()] for an attribute that may still be [None]. *)
Definition lower_of (x : option string) : M string :=
  match x with
  | Some s => ret (lower env s)
  | None => raise (AttributeError_NoneType "lower")
  end.

Definition download_container (container_name output_dir : string) : M unit :=
  let* generator := call (ListBlobs container_name)
                         (fun h => blobs_listed env h container_name) in
  for_each generator (fun blob =>
    if PyStr.contains_char "/" (name blob) then
      let '(head, tail) := OsPath.split (name blob) in
      let* there := isdir (OsPath.join output_dir [head]) in
      if there then
        call_ (GetBlobToPath container_name (name blob) (OsPath.join output_dir [head; tail]))
      else
        makedirs (OsPath.join output_dir [head]) ;;;
        call_ (GetBlobToPath container_name (name blob) (OsPath.join output_dir [head; tail]))
    else
      call_ (GetBlobToPath container_name (name blob) (name blob))).

(** [destination_dir] is [None] for the default [False]; an empty string
    is as false as [False]. *)
Definition _create_resource_file (file_to_upload input_container_name : string)
    (destination_dir : option string) : M ResourceFile :=
  let blob_name := OsPath.basename file_to_upload in
  call_ (CreateBlobFromPath input_container_name blob_name file_to_upload) ;;;
  let* sas_token := call (GenerateContainerSas input_container_name READ 2)
                         (fun h => sas_token env h input_container_name READ) in
  let sas_url := make_blob_url env input_container_name blob_name sas_token in
  match destination_dir with
  | Some d =>
      if PyStr.is_empty d
      then ret {| file_path := snd (OsPath.split file_to_upload); blob_source := sas_url |}
      else ret {| file_path := OsPath.join d [snd (OsPath.split file_to_upload)];
                  blob_source := sas_url |}
  | None => ret {| file_path := snd (OsPath.split file_to_upload); blob_source := sas_url |}
  end.

Definition upload_input_to_blob_storage (self : AzureBatch) : M ref :=
  let* resource_files := new_list in
  BlockBlobService (storage_account_key self) (storage_account_name self) ;;;
  let* lowered := lower_of (job_name self) in
  let input_container_name := lowered +:+ "-input" in
  call_ (CreateContainer input_container_name) ;;;
  for_each (input self) (fun input_request =>
    (if Nat.eqb (length (PyStr.split_ws input_request)) 1 then
       let files_to_upload := glob_result env input_request in
       for_each files_to_upload (fun file_to_upload =>
         let* rf := _create_resource_file file_to_upload input_container_name None in
         list_append resource_files rf)
     else ret tt) ;;;
    (if Nat.ltb 1 (length (PyStr.split_ws input_request)) then
       let things_to_upload := PyStr.split_ws input_request in
       let destination_dir := List.last things_to_upload EmptyString in
       let things_to_upload := removelast things_to_upload in
       for_each things_to_upload (fun thing =>
         let files_to_upload := glob_result env thing in
         for_each files_to_upload (fun file_to_upload =>
           let* rf := _create_resource_file file_to_upload input_container_name
                        (Some destination_dir) in
           list_append resource_files rf))
     else ret tt)) ;;;
  ret resource_files.

Definition create_pool (self : AzureBatch) : M unit :=
  let new_pool :=
    {| pool_id := job_name self;
       image_reference := {| publisher := "Canonical";
                             offer := "UbuntuServer";
                             sku := "16.04-LTS";
                             version := "latest" |};
       node_agent_sku_id := "batch.node.ubuntu 16.04";
       pool_vm_size := vm_size self;
       target_dedicated_nodes := 1;
       target_low_priority_nodes := 0 |} in
  call_ (PoolAdd new_pool).

Definition create_job (self : AzureBatch) : M unit :=
  let job := {| job_id := job_name self; job_pool_id := job_name self |} in
  call_ (JobAdd job).

Definition delete_job (self : AzureBatch) : M unit :=
  call_ (JobDelete (job_name self)).

Definition delete_pool (self : AzureBatch) : M unit :=
  call_ (PoolDelete (job_name self)).

Definition prepare_output_resource_files (self : AzureBatch) (sas_url : string)
    : list OutputFile :=
  flat_map
    (fun output_request =>
       map (fun output_item =>
              {| file_pattern := output_item;
                 container_url := sas_url;
                 destination_path := Some (fst (OsPath.split output_item));
                 upload_condition := task_success |})
           (PyStr.split_ws output_request))
    (output self)
  ++ [ {| file_pattern := "std*.txt";
          container_url := sas_url;
          destination_path := None;
          upload_condition := task_success |} ].

Definition download_output_files_and_delete_container (self : AzureBatch) : M unit :=
  let* lowered := lower_of (job_name self) in
  let output_container := lowered +:+ "-output" in
  BlockBlobService (storage_account_key self) (storage_account_name self) ;;;
  download_container output_container "." ;;;
  call_ (DeleteContainer output_container).

Definition delete_input_container (self : AzureBatch) : M unit :=
  let* lowered := lower_of (job_name self) in
  let input_container := lowered +:+ "-input" in
  BlockBlobService (storage_account_key self) (storage_account_name self) ;;;
  call_ (DeleteContainer input_container).

Definition confindr_database : ResourceFile :=
  {| file_path := "confindr.tar.gz";
     blob_source := "https://carlingst01.blob.core.windows.net/databases/confindr.tar.gz" |}.

(** [input_files] is a reference: the [append] is seen by the caller. *)
Definition create_task (self : AzureBatch) (input_files : ref) : M unit :=
  BlockBlobService (storage_account_key self) (storage_account_name self) ;;;
  let* lowered := lower_of (job_name self) in
  let output_container_name := lowered +:+ "-output" in
  call_ (CreateContainer output_container_name) ;;;
  let* sas_token := call (GenerateContainerSas output_container_name WRITE 2)
                         (fun h => sas_token env h output_container_name WRITE) in
  let sas_url := "https://" +:+ PyStr.str (storage_account_name self)
                 +:+ ".blob.core.windows.net/" +:+ output_container_name
                 +:+ "?" +:+ sas_token in
  let output_files := prepare_output_resource_files self sas_url in
  list_append input_files confindr_database ;;;
  let* sent := list_read input_files in
  let task :=
    {| task_id := "Task1";
       command_line := "/bin/bash -c " +:+ dquote +:+ PyStr.str (command self) +:+ dquote;
       resource_files := sent;
       output_files := output_files |} in
  call_ (TaskAdd (job_name self) task).

(** The flag after one pass over the listed tasks. *)
Definition all_completed (tasks : list CloudTask) : bool :=
  fold_left
    (fun all_tasks_completed task =>
       match state task with
       | completed => all_tasks_completed
       | _ => false
       end)
    tasks true.

(** The [while] loop of [wait_for_tasks_to_complete]; [fuel] bounds the
    number of rounds. *)
Fixpoint wait_loop (fuel : nat) (self : AzureBatch) (all_tasks_completed : bool) : M unit :=
  if all_tasks_completed then ret tt
  else
    match fuel with
    | O => out_of_fuel
    | S fuel' =>
        let* tasks := call (TaskList (job_name self))
                           (fun h => tasks_listed env h (job_name self)) in
        let all_tasks_completed := all_completed tasks in
        emit (Sleep 30) ;;;
        wait_loop fuel' self all_tasks_completed
    end.

Definition wait_for_tasks_to_complete (fuel : nat) (self : AzureBatch) : M unit :=
  wait_loop fuel self false.

Definition parse_configuration_file (config_file : string) : M AzureBatch :=
  let* config_options := call (ReadLines config_file) (fun _ => file_lines env config_file) in
  match parse_configuration config_file config_options with
  | inl e => raise e
  | inr azurebatch => ret azurebatch
  end.

Definition check_no_attributes_none (azurebatch_object : AzureBatch) : M unit :=
  let missing := missing_attributes azurebatch_object in
  if Nat.ltb 0 (length missing)
  then raise (AttributeError_missing missing)
  else ret tt.

(** The script under [if __name__ == '__main__'], after [parse_args]. *)
Definition main (fuel : nat) (args : Args) : M unit :=
  emit (LogInfo ("Reading in configuration file " +:+ configuration_file args +:+ "...")) ;;;
  let* azurebatch := parse_configuration_file (configuration_file args) in
  check_no_attributes_none azurebatch ;;;
  emit (LogInfo "Configuration file validated. Uploading input files to blob storage...") ;;;
  let* resource_files := upload_input_to_blob_storage azurebatch in
  emit (LogInfo "Creating pool and running tasks...") ;;;
  create_pool azurebatch ;;;
  create_job azurebatch ;;;
  create_task azurebatch resource_files ;;;
  wait_for_tasks_to_complete fuel azurebatch ;;;
  emit (LogInfo "Tasks complete! Cleaning up pool...") ;;;
  delete_job azurebatch ;;;
  delete_pool azurebatch ;;;
  emit (LogInfo "Downloading output files...") ;;;
  (if download_output_files args
   then download_output_files_and_delete_container azurebatch
   else ret tt) ;;;
  delete_input_container azurebatch.

End Program.

(** ** Reading runs: what a computation adds to the trace *)

(** The steps of a run, as far as a claim looks at them. *)

Inductive Resource :=
| Container (container_name : string)
| Pool
| Job
| Task.

(** The resource an event creates, if any. *)
Definition created (ev : Event) : option Resource :=
  match ev with
  | CreateContainer n => Some (Container n)
  | PoolAdd _ => Some Pool
  | JobAdd _ => Some Job
  | TaskAdd _ _ => Some Task
  | _ => None
  end.

Inductive Step :=
| Download
| DeleteJob
| DeletePool
| DeleteContainerNamed (container_name : string).

(** The teardown step an event belongs to, if any: listing the blobs,
    making a local directory and fetching a blob are the download. *)
Definition teardown_step (ev : Event) : option Step :=
  match ev with
  | ListBlobs _ | Makedirs _ | GetBlobToPath _ _ _ => Some Download
  | JobDelete _ => Some DeleteJob
  | PoolDelete _ => Some DeletePool
  | DeleteContainer n => Some (DeleteContainerNamed n)
  | _ => None
  end.

(** Every run of [m] adds a trace [t] with [Q t r]. *)
Definition run_spec {A} (m : M A) (Q : list Event -> Outcome A -> Prop) : Prop :=
  forall w r w', m w = (r, w') -> exists t, trace w' = trace w ++ t /\ Q t r.

Definition can_return {A} (m : M A) (a : A) : Prop :=
  exists w w', m w = (Ok a, w').

(** Sets of step sequences. *)
Definition lang (K : Type) : Type := list K -> Prop.

Definition one {K} (l : list K) : lang K := fun x => x = l.

Definition only {K} (P : K -> Prop) : lang K := fun x => Forall P x.

Definition cat {K} (L1 L2 : lang K) : lang K :=
  fun x => exists a b, x = a ++ b /\ L1 a /\ L2 b.

Definition pref {K} (L : lang K) : lang K := fun x => exists y, L (x ++ y).

(** [m] obeys [L] under the reading [k]: the steps of a run that returns
    are a sequence of [L], the steps of any run are the beginning of one,
    and a call that fails is the last thing the run does. *)
Definition obeys {K A} (k : Event -> option K) (L : lang K) (m : M A) : Prop :=
  run_spec m (fun t r =>
    pref L (omap k t)
    /\ (forall a, r = Ok a -> L (omap k t))
    /\ (forall ev, r = Raise (CallFailed ev) -> exists t0, t = t0 ++ [ev])).

(** Every event a run of [m] adds satisfies [P]. *)
Definition emits {A} (P : Event -> Prop) (m : M A) : Prop :=
  run_spec m (fun t _ => Forall P t).

(** Both readings at once. *)
Inductive Action :=
| Creates (r : Resource)
| Tears (s : Step).

Definition action (ev : Event) : option Action :=
  match created ev with
  | Some r => Some (Creates r)
  | None =>
      match teardown_step ev with
      | Some s => Some (Tears s)
      | None => None
      end
  end.

Definition creation_of (a : Action) : option Resource :=
  match a with Creates r => Some r | Tears _ => None end.

Definition teardown_of (a : Action) : option Step :=
  match a with Tears s => Some s | Creates _ => None end.

(** ** The names and the sequences the claims speak of *)

Definition input_container_of (env : Env) (job_name : string) : string :=
  lower env job_name +:+ "-input".

Definition output_container_of (env : Env) (job_name : string) : string :=
  lower env job_name +:+ "-output".

(** The job name a run works with: the one its configuration file gives. *)
Definition configured_job_name (env : Env) (args : Args) : string :=
  match parse_configuration (configuration_file args)
                            (file_lines env (configuration_file args)) with
  | inr azurebatch => default EmptyString (job_name azurebatch)
  | inl _ => EmptyString
  end.

(** The order in which the program creates the remote resources. *)
Definition creation_sequence (env : Env) (j : string) : list Resource :=
  [Container (input_container_of env j); Pool; Job; Container (output_container_of env j); Task].

(** The order the specification gives. *)
Definition creation_sequence_claimed (env : Env) (j : string) : list Resource :=
  [Container (input_container_of env j); Pool; Job; Task; Container (output_container_of env j)].

(** The teardown of the program, with [n + 1] download events when the
    outputs are downloaded. *)
Definition teardown_sequence (env : Env) (j : string) (download : bool) (n : nat) : list Step :=
  [DeleteJob; DeletePool]
  ++ (if download
      then repeat Download (S n) ++ [DeleteContainerNamed (output_container_of env j)]
      else [])
  ++ [DeleteContainerNamed (input_container_of env j)].

(** The teardown the specification gives. *)
Definition teardown_sequence_claimed (env : Env) (j : string) (download : bool) (n : nat) : list Step :=
  (if download then repeat Download (S n) else [])
  ++ [DeleteJob; DeletePool;
      DeleteContainerNamed (output_container_of env j);
      DeleteContainerNamed (input_container_of env j)].

(** Everything a whole run does, under [action]. *)
Definition run_sequence (env : Env) (j : string) (download : bool) (n : nat) : list Action :=
  map Creates (creation_sequence env j) ++ map Tears (teardown_sequence env j download n).

(** Any number of download events. *)
Definition downloads : lang Action := only (fun a => a = Tears Download).

(** The step sequences of whole runs. *)
Definition run_lang (env : Env) (j : string) (download : bool) : lang Action :=
  fun x => exists n, x = run_sequence env j download n.

(** ** The claims of the specification that the program does not meet,
    as the specification words them *)

(** Teardown is best-effort: in a run that gets to deleting the job, the
    pool, the output container and the input container are deleted too
    (or at least that is attempted), whatever the job deletion did. *)
Definition teardown_is_best_effort (env : Env) (fuel : nat) (args : Args) (w : World) : Prop :=
  forall r w' t,
    main env fuel args w = (r, w') ->
    trace w' = trace w ++ t ->
    DeleteJob ∈ omap teardown_step t ->
    DeletePool ∈ omap teardown_step t
    /\ DeleteContainerNamed (output_container_of env (configured_job_name env args))
         ∈ omap teardown_step t
    /\ DeleteContainerNamed (input_container_of env (configured_job_name env args))
         ∈ omap teardown_step t.

(** The teardown steps come in the order download, job, pool, output
    container, input container. *)
Definition teardown_in_claimed_order (env : Env) (fuel : nat) (args : Args) (w : World) : Prop :=
  forall r w' t,
    main env fuel args w = (r, w') ->
    trace w' = trace w ++ t ->
    exists n,
      omap teardown_step t `prefix_of`
        teardown_sequence_claimed env (configured_job_name env args) (download_output_files args) n.

(** With the flag that skips the download, a run that completes has
    downloaded nothing and has deleted the output container. *)
Definition skip_still_deletes_output_container
    (env : Env) (fuel : nat) (config_file : string) (w : World) : Prop :=
  let args := parse_args config_file true in
  forall w' t,
    main env fuel args w = (Ok tt, w') ->
    trace w' = trace w ++ t ->
    (Download ∉ omap teardown_step t)
    /\ (DeleteContainerNamed (output_container_of env (configured_job_name env args))
          ∈ omap teardown_step t).

(** The resources are created in the order input container, pool, job,
    task, output container. *)
Definition creates_in_claimed_order (env : Env) (fuel : nat) (args : Args) (w : World) : Prop :=
  forall r w' t,
    main env fuel args w = (r, w') ->
    trace w' = trace w ++ t ->
    omap created t `prefix_of` creation_sequence_claimed env (configured_job_name env args).

(** ** A sample run *)

Module Sample.

Definition newline : string := String (ascii_of_nat 10) EmptyString.

Definition config_lines : list string :=
  map (fun line => line +:+ newline)
    [ "BATCH_ACCOUNT_NAME:=batch"; "BATCH_ACCOUNT_KEY:=bkey";
      "BATCH_ACCOUNT_URL:=https://batch.example"; "STORAGE_ACCOUNT_NAME:=store";
      "STORAGE_ACCOUNT_KEY:=skey"; "JOB_NAME:=MyJob"; "COMMAND:=run.sh";
      "INPUT:=in/*.csv"; "OUTPUT:=out/*.json"; "VM_IMAGE:=my-image" ].

Definition is_task_list (ev : Event) : bool :=
  match ev with TaskList _ => true | _ => false end.

(** Nothing fails; the task is running at the first poll and completed,
    with exit code 1, from the second; the output container holds
    [a.txt] and [sub/b.txt]. *)
Definition env : Env :=
  {| raises := fun _ _ => false;
     tasks_listed := fun h _ =>
       [ {| cloud_task_id := "Task1";
            state := if existsb is_task_list h then completed else running;
            exit_code := if existsb is_task_list h then Some 1%Z else None |} ];
     blobs_listed := fun _ _ => [ {| name := "a.txt" |}; {| name := "sub/b.txt" |} ];
     glob_result := fun _ => ["in/x.csv"];
     sas_token := fun _ _ _ => "sig";
     make_blob_url := fun c b t => "https://store.example/" +:+ c +:+ "/" +:+ b +:+ "?" +:+ t;
     file_lines := fun _ => config_lines;
     lower := PyStr.ascii_lower |}.

(** The same, but deleting the job fails. *)
Definition env_job_delete_fails : Env :=
  {| raises := fun _ ev => match ev with JobDelete _ => true | _ => false end;
     tasks_listed := tasks_listed env;
     blobs_listed := blobs_listed env;
     glob_result := glob_result env;
     sas_token := sas_token env;
     make_blob_url := make_blob_url env;
     file_lines := file_lines env;
     lower := lower env |}.

Definition world : World := {| trace := []; heap := []; dirs := ∅ |}.

(** [-c job.cfg] *)
Definition args : Args := parse_args "job.cfg" false.

(** [-c job.cfg -d] *)
Definition args_skip : Args := parse_args "job.cfg" true.

End Sample.

(** ** The rounds of the completion poller *)

(** What [k] rounds of polling add to the trace. *)
Fixpoint poll_rounds (job : option string) (k : nat) : list Event :=
  match k with
  | O => []
  | S k' => TaskList job :: Sleep 30 :: poll_rounds job k'
  end.

(** The tasks listed in round [k] (counted from 0) of a poller that
    started after the calls [t0], and whether the listing fails. *)
Definition listing (env : Env) (t0 : list Event) (job : option string) (k : nat)
    : list CloudTask :=
  tasks_listed env (t0 ++ poll_rounds job k) job.

Definition listing_fails (env : Env) (t0 : list Event) (job : option string) (k : nat) : bool :=
  raises env (t0 ++ poll_rounds job k) (TaskList job).

(** Every listed task is in the terminal state. *)
Definition all_terminal (tasks : list CloudTask) : Prop :=
  Forall (fun task => state task = completed) tasks.

(** The world after [k] rounds of polling. *)
Definition after_rounds (w : World) (job : option string) (k : nat) : World :=
  {| trace := trace w ++ poll_rounds job k; heap := heap w; dirs := dirs w |}.

(** ** What the claim on the configuration file speaks of *)

(** [sep in s] *)
Fixpoint contains (sep s : string) : bool :=
  PyStr.startswith sep s
  || match s with
     | EmptyString => false
     | String _ s' => contains sep s'
     end.

(** The line, as the parser sees it, has the separator of option and value. *)
Definition has_separator (line : string) : bool := contains ":=" (PyStr.rstrip line).

(** ** The names an operation uses *)

(** The storage client can be made: the object has the name of a storage
    account, and it is not empty. *)
Definition account_given (self : AzureBatch) : bool :=
  match storage_account_name self with
  | Some (String _ _) => true
  | _ => false
  end.

(** The event names no container but [container], and no pool and no job
    but [j]. *)
Definition uses_names (j container : string) (ev : Event) : Prop :=
  match ev with
  | CreateContainer n | CreateBlobFromPath n _ _ | GenerateContainerSas n _ _
  | ListBlobs n | GetBlobToPath n _ _ | DeleteContainer n => n = container
  | PoolAdd pool => pool_id pool = Some j
  | JobAdd job => job_id job = Some j /\ job_pool_id job = Some j
  | TaskAdd x _ | TaskList x | JobDelete x | PoolDelete x => x = Some j
  | LogInfo _ | ReadLines _ | Sleep _ | Makedirs _ => True
  end.

(** The reading that keeps every event. *)
Definition every_event (ev : Event) : option Event := Some ev.

(** ** What the lines of a configuration file say *)

(** The option and the parameter of a line, as the parser indexes them. *)
Definition option_of (line : string) : option string :=
  PyStr.split ":=" (PyStr.rstrip line) !! 0%nat.

Definition parameter_of (line : string) : option string :=
  PyStr.split ":=" (PyStr.rstrip line) !! 1%nat.

(** The parameters of the lines whose option is [key], in file order. *)
Definition values_of (key : string) (config_options : list string) : list string :=
  omap (fun line =>
          match option_of line with
          | Some option => if String.eqb option key then parameter_of line else None
          | None => None
          end)
       config_options.

(** The options of the lines, in file order. *)
Definition options_of (config_options : list string) : list string :=
  omap option_of config_options.

Definition recognized_options : list string :=
  [ "BATCH_ACCOUNT_NAME"; "BATCH_ACCOUNT_KEY"; "BATCH_ACCOUNT_URL";
    "STORAGE_ACCOUNT_NAME"; "STORAGE_ACCOUNT_KEY"; "JOB_NAME"; "COMMAND";
    "INPUT"; "OUTPUT"; "VM_IMAGE"; "VM_SIZE" ].

Definition recognized (option : string) : bool :=
  existsb (String.eqb option) recognized_options.

(** The options a file has to give: all but [VM_SIZE], which has a default. *)
Definition required_options : list string :=
  [ "BATCH_ACCOUNT_NAME"; "BATCH_ACCOUNT_KEY"; "BATCH_ACCOUNT_URL";
    "STORAGE_ACCOUNT_NAME"; "STORAGE_ACCOUNT_KEY"; "JOB_NAME"; "COMMAND";
    "VM_IMAGE"; "INPUT"; "OUTPUT" ].

(** An attribute [check_no_attributes_none] reports: [None] or an empty list. *)
Definition unset (v : PyVal) : bool :=
  match v with
  | VNone => true
  | VList l => Nat.eqb (length l) 0
  | VStr _ => false
  end.

(** A scalar attribute after a run of assignments: the last value wins. *)
Definition last_or (old : option string) (values : list string) : option string :=
  match last values with
  | Some v => Some v
  | None => old
  end.

(** ** Runs that go wrong *)

Module Trouble.

(** As the sample, but the task never leaves the state [running]. *)
Definition env_never_completes : Env :=
  {| raises := fun _ _ => false;
     tasks_listed := fun _ _ =>
       [ {| cloud_task_id := "Task1"; state := running; exit_code := None |} ];
     blobs_listed := blobs_listed Sample.env;
     glob_result := glob_result Sample.env;
     sas_token := sas_token Sample.env;
     make_blob_url := make_blob_url Sample.env;
     file_lines := file_lines Sample.env;
     lower := lower Sample.env |}.

(** As the sample, but listing the tasks fails from the second time on. *)
Definition env_listing_fails : Env :=
  {| raises := fun h ev =>
       match ev with
       | TaskList _ => existsb Sample.is_task_list h
       | _ => false
       end;
     tasks_listed := tasks_listed env_never_completes;
     blobs_listed := blobs_listed Sample.env;
     glob_result := glob_result Sample.env;
     sas_token := sas_token Sample.env;
     make_blob_url := make_blob_url Sample.env;
     file_lines := file_lines Sample.env;
     lower := lower Sample.env |}.

(** As the sample, but creating the pool fails. *)
Definition env_pool_fails : Env :=
  {| raises := fun _ ev => match ev with PoolAdd _ => true | _ => false end;
     tasks_listed := tasks_listed Sample.env;
     blobs_listed := blobs_listed Sample.env;
     glob_result := glob_result Sample.env;
     sas_token := sas_token Sample.env;
     make_blob_url := make_blob_url Sample.env;
     file_lines := file_lines Sample.env;
     lower := lower Sample.env |}.

(** As the sample, but the configuration file lacks [COMMAND] and [OUTPUT]. *)
Definition env_incomplete_file : Env :=
  {| raises := raises Sample.env;
     tasks_listed := tasks_listed Sample.env;
     blobs_listed := blobs_listed Sample.env;
     glob_result := glob_result Sample.env;
     sas_token := sas_token Sample.env;
     make_blob_url := make_blob_url Sample.env;
     file_lines := fun _ =>
       [ "BATCH_ACCOUNT_NAME:=batch"; "BATCH_ACCOUNT_KEY:=bkey";
         "BATCH_ACCOUNT_URL:=https://batch.example"; "STORAGE_ACCOUNT_NAME:=store";
         "STORAGE_ACCOUNT_KEY:=skey"; "JOB_NAME:=MyJob";
         "INPUT:=in/*.csv"; "VM_IMAGE:=my-image" ];
     lower := lower Sample.env |}.

End Trouble.

(** ** The phases of a run *)

Inductive Phase :=
| Staging
| Provisioning
| Polling
| Teardown.

(** The phase a call belongs to.  Containers are told apart by name:
    what is done to the input container is staging, what is done to
    another container before the task runs is provisioning. *)
Definition phase (input_container : string) (ev : Event) : option Phase :=
  match ev with
  | LogInfo _ | ReadLines _ => None
  | CreateContainer n | GenerateContainerSas n _ _ =>
      if String.eqb n input_container then Some Staging else Some Provisioning
  | CreateBlobFromPath _ _ _ => Some Staging
  | PoolAdd _ | JobAdd _ | TaskAdd _ _ => Some Provisioning
  | TaskList _ | Sleep _ => Some Polling
  | JobDelete _ | PoolDelete _ | ListBlobs _ | Makedirs _ | GetBlobToPath _ _ _
  | DeleteContainer _ => Some Teardown
  end.

(** Staging, then provisioning, then polling, then teardown. *)
Definition phases_in_order : lang Phase :=
  fun x => exists a b c d,
    x = repeat Staging a ++ repeat Provisioning b ++ repeat Polling c ++ repeat Teardown d.

(** ** What staging is to do *)


(** Where a planned file is to be placed on the machine. *)
Definition planned_path (item : string * option string) : string :=
  match snd item with
  | Some d =>
      if PyStr.is_empty d then snd (OsPath.split (fst item))
      else OsPath.join d [snd (OsPath.split (fst item))]
  | None => snd (OsPath.split (fst item))
  end.

(** The calls that stage a planned file. *)
Definition upload_events (container : string) (item : string * option string) : list Event :=
  [ CreateBlobFromPath container (OsPath.basename (fst item)) (fst item);
    GenerateContainerSas container READ 2 ].

(** The calls of staging and of task creation that matter for access:
    blobs are named by the base name of the file, tokens last two hours,
    and the permission is [permission]. *)
Definition grants (permission : BlobPermissions) (ev : Event) : Prop :=
  match ev with
  | CreateBlobFromPath _ blob path => blob = OsPath.basename path
  | GenerateContainerSas _ p hours => p = permission /\ hours = 2%Z
  | _ => True
  end.

(** From [w] to [w'] the planned [items] have been staged, their
    resource files appended to the list [r]. *)
Definition staged (container : string) (r : ref) (items : list (string * option string))
    (w w' : World) : Prop :=
  exists old new,
    heap w !! r = Some old
    /\ heap w' !! r = Some (old ++ new)
    /\ map file_path new = map planned_path items
    /\ trace w' = trace w ++ flat_map (upload_events container) items.

(** ** The task that is submitted *)


(** * Properties *)

(** ** Rules for reading runs *)

Lemma run_spec_weaken {A} (m : M A) (Q Q' : list Event -> Outcome A -> Prop) :
  run_spec m Q -> (forall t r, Q t r -> Q' t r) -> run_spec m Q'.
Proof.
  intros Hm HQ w r w' Hrun.
  destruct (Hm w r w' Hrun) as (t & Ht & Hq).
  exists t. split; [exact Ht | apply HQ, Hq].
Qed.

Lemma run_spec_bind {A B} (m : M A) (f : A -> M B)
    (Q1 : list Event -> Outcome A -> Prop) (Q2 Q : list Event -> Outcome B -> Prop) :
  run_spec m Q1 ->
  (forall a, can_return m a -> run_spec (f a) Q2) ->
  (forall t1 a t2 r, Q1 t1 (Ok a) -> Q2 t2 r -> Q (t1 ++ t2) r) ->
  (forall t e, Q1 t (Raise e) -> Q t (Raise e)) ->
  (forall t, Q1 t OutOfFuel -> Q t OutOfFuel) ->
  run_spec (bind m f) Q.
Proof.
  intros Hm Hf Hok Hraise Hfuel w r w' Hrun.
  unfold bind in Hrun.
  destruct (m w) as [r1 w1] eqn:Hmw.
  destruct (Hm w r1 w1 Hmw) as (t1 & Ht1 & Hq1).
  destruct r1 as [a | e | ].
  - assert (Hret : can_return m a) by (exists w, w1; exact Hmw).
    destruct (Hf a Hret w1 r w' Hrun) as (t2 & Ht2 & Hq2).
    exists (t1 ++ t2). split.
    + rewrite Ht2, Ht1. symmetry. apply app_assoc.
    + eapply Hok; eassumption.
  - inversion Hrun; subst. exists t1. split; [exact Ht1 | apply Hraise, Hq1].
  - inversion Hrun; subst. exists t1. split; [exact Ht1 | apply Hfuel, Hq1].
Qed.

Lemma pref_cat_l {K} (L1 L2 : lang K) (x : list K) :
  pref L1 x -> (exists z, L2 z) -> pref (cat L1 L2) x.
Proof.
  intros [y Hy] [z Hz]. exists (y ++ z), (x ++ y), z.
  split; [apply app_assoc | split; assumption].
Qed.

Lemma pref_cat_r {K} (L1 L2 : lang K) (x1 x2 : list K) :
  L1 x1 -> pref L2 x2 -> pref (cat L1 L2) (x1 ++ x2).
Proof.
  intros H1 [y Hy]. exists y, x1, (x2 ++ y).
  split; [symmetry; apply app_assoc | split; assumption].
Qed.

Lemma pref_self {K} (L : lang K) (x : list K) : L x -> pref L x.
Proof. intros H. exists []. rewrite app_nil_r. exact H. Qed.

Section Obeys.

Context {K : Type} (k : Event -> option K).

Lemma obeys_weaken {A} (L L' : lang K) (m : M A) :
  obeys k L m -> (forall x, L x -> L' x) -> obeys k L' m.
Proof.
  intros Hm HL. eapply run_spec_weaken; [exact Hm |].
  intros t r ([y Hy] & Hok & Hlast). repeat split.
  - exists y. apply HL, Hy.
  - intros a Ha. eapply HL, Hok, Ha.
  - exact Hlast.
Qed.

Lemma obeys_bind {A B} (L1 L2 : lang K) (m : M A) (f : A -> M B) :
  obeys k L1 m ->
  (forall a, can_return m a -> obeys k L2 (f a)) ->
  (exists z, L2 z) ->
  obeys k (cat L1 L2) (bind m f).
Proof.
  intros Hm Hf Hinh.
  eapply run_spec_bind; [exact Hm | exact Hf | | | ].
  - intros t1 a t2 r (_ & Hok1 & _) (Hp2 & Hok2 & Hlast2).
    rewrite omap_app. repeat split.
    + apply pref_cat_r; [eapply Hok1; reflexivity | exact Hp2].
    + intros b Hb. exists (omap k t1), (omap k t2).
      split; [reflexivity | split; [eapply Hok1; reflexivity | eapply Hok2, Hb]].
    + intros ev Hev. destruct (Hlast2 ev Hev) as [t0 Ht0].
      exists (t1 ++ t0). rewrite Ht0. apply app_assoc.
  - intros t e (Hp1 & _ & Hlast1). repeat split.
    + apply pref_cat_l; assumption.
    + intros a Ha. discriminate Ha.
    + intros ev Hev. apply Hlast1. congruence.
  - intros t (Hp1 & _ & _). repeat split.
    + apply pref_cat_l; assumption.
    + intros a Ha. discriminate Ha.
    + intros ev Hev. discriminate Hev.
Qed.

(** A computation that adds nothing to the trace and fails with no call. *)
Lemma obeys_silent {A} (m : M A) :
  (forall w, trace (snd (m w)) = trace w) ->
  (forall w ev, fst (m w) <> Raise (CallFailed ev)) ->
  obeys k (one []) m.
Proof.
  intros Htr Hnf w r w' Hrun. exists []. split.
  - specialize (Htr w). rewrite Hrun in Htr. simpl in Htr.
    rewrite app_nil_r. exact Htr.
  - repeat split.
    + exists []. reflexivity.
    + intros ev Hev. exfalso. apply (Hnf w ev). rewrite Hrun. simpl. exact Hev.
Qed.

Lemma obeys_ret {A} (a : A) : obeys k (one []) (ret a).
Proof. apply obeys_silent; intros; simpl; [reflexivity | discriminate]. Qed.

Lemma obeys_raise {A} (e : exn) :
  (forall ev, e <> CallFailed ev) -> obeys k (one []) (@raise A e).
Proof.
  intros He. apply obeys_silent; intros; simpl; [reflexivity |].
  intros Heq. inversion Heq. eapply He; eassumption.
Qed.

Lemma obeys_emit (ev : Event) : obeys k (one (omap k [ev])) (emit ev).
Proof.
  intros w r w' Hrun. inversion Hrun; subst. exists [ev].
  split; [reflexivity |]. repeat split.
  - apply pref_self. reflexivity.
  - intros e He. discriminate He.
Qed.

Lemma obeys_call {A} (env : Env) (ev : Event) (answer : list Event -> A) :
  obeys k (one (omap k [ev])) (call env ev answer).
Proof.
  intros w r w' Hrun. unfold call in Hrun. exists [ev].
  destruct (raises env (trace w) ev); inversion Hrun; subst;
    (split; [reflexivity |]); repeat split;
    try (apply pref_self; reflexivity); try discriminate.
  intros e He. inversion He; subst. exists []. reflexivity.
Qed.

Lemma obeys_makedirs (env : Env) (path : string) :
  obeys k (one (omap k [Makedirs path])) (makedirs env path).
Proof.
  intros w r w' Hrun. unfold makedirs in Hrun. exists [Makedirs path].
  destruct (isdir_in (dirs w) path); [| destruct (raises env (trace w) (Makedirs path))];
    inversion Hrun; subst;
    (split; [reflexivity |]); repeat split;
    try (apply pref_self; reflexivity); try discriminate.
  intros e He. inversion He; subst. exists []. reflexivity.
Qed.

Lemma obeys_new_list : obeys k (one []) new_list.
Proof. apply obeys_silent; intros; simpl; [reflexivity | discriminate]. Qed.

Lemma obeys_list_append (l : ref) (x : ResourceFile) : obeys k (one []) (list_append l x).
Proof.
  apply obeys_silent; intros; simpl; [| discriminate].
  destruct (heap w !! l); reflexivity.
Qed.

Lemma obeys_list_read (l : ref) : obeys k (one []) (list_read l).
Proof. apply obeys_silent; intros; simpl; [reflexivity | discriminate]. Qed.

Lemma obeys_isdir (path : string) : obeys k (one []) (isdir path).
Proof. apply obeys_silent; intros; simpl; [reflexivity | discriminate]. Qed.

Lemma obeys_lower_of (env : Env) (x : option string) : obeys k (one []) (lower_of env x).
Proof. destruct x; [apply obeys_ret | apply obeys_raise; discriminate]. Qed.

Lemma obeys_BlockBlobService (account_key account_name : option string) :
  obeys k (one []) (BlockBlobService account_key account_name).
Proof.
  destruct account_name as [[| c s] |];
    [apply obeys_raise; discriminate | apply obeys_ret | apply obeys_raise; discriminate].
Qed.

Lemma only_cat (P : K -> Prop) (x : list K) : cat (only P) (only P) x -> only P x.
Proof. intros (a & b & -> & Ha & Hb). apply Forall_app. split; assumption. Qed.

Lemma only_nil (P : K -> Prop) (x : list K) : one [] x -> only P x.
Proof. intros ->. constructor. Qed.

Lemma obeys_for_each {A} (P : K -> Prop) (l : list A) (body : A -> M unit) :
  (forall x, obeys k (only P) (body x)) ->
  obeys k (only P) (for_each l body).
Proof.
  intros Hbody. induction l as [| x l IH]; simpl.
  - eapply obeys_weaken; [apply obeys_ret | apply only_nil].
  - eapply obeys_weaken; [| apply only_cat].
    apply obeys_bind; [apply Hbody | intros; exact IH | exists []; constructor].
Qed.

End Obeys.

Lemma inh_one {K} (l : list K) : exists z, one l z.
Proof. exists l. reflexivity. Qed.

Lemma inh_only {K} (P : K -> Prop) : exists z, only P z.
Proof. exists []. constructor. Qed.

Lemma inh_cat {K} (L1 L2 : lang K) :
  (exists z, L1 z) -> (exists z, L2 z) -> exists z, cat L1 L2 z.
Proof. intros [a Ha] [b Hb]. exists (a ++ b), a, b. auto. Qed.

Lemma inh_if {K} (b : bool) (L1 L2 : lang K) :
  (exists z, L1 z) -> (exists z, L2 z) -> exists z, (if b then L1 else L2) z.
Proof. destruct b; auto. Qed.

Lemma obeys_if {K A} (k : Event -> option K) (b : bool) (L1 L2 : lang K) (m1 m2 : M A) :
  obeys k L1 m1 -> obeys k L2 m2 ->
  obeys k (if b then L1 else L2) (if b then m1 else m2).
Proof. destruct b; auto. Qed.

Lemma obeys_call_as {K A} (k : Event -> option K) (l : list K)
    (env : Env) (ev : Event) (answer : list Event -> A) :
  omap k [ev] = l -> obeys k (one l) (call env ev answer).
Proof. intros <-. apply obeys_call. Qed.

Lemma obeys_emit_as {K} (k : Event -> option K) (l : list K) (ev : Event) :
  omap k [ev] = l -> obeys k (one l) (emit ev).
Proof. intros <-. apply obeys_emit. Qed.

Ltac inhabit :=
  lazymatch goal with
  | |- @ex _ ?L =>
      tryif has_evar L then fail
      else (repeat (first [apply inh_one | apply inh_only | apply inh_if | apply inh_cat]))
  end.

Ltac unlang :=
  repeat match goal with
  | H : cat _ _ _ |- _ => destruct H as (? & ? & ? & ? & ?)
  | H : one _ _ |- _ => unfold one in H
  end; subst; simpl.

(** One step of a chain of binds. *)
Ltac obey_step env :=
  first
    [ apply obeys_ret
    | apply obeys_emit
    | apply obeys_call
    | apply obeys_makedirs
    | apply obeys_new_list
    | apply obeys_list_append
    | apply obeys_list_read
    | apply obeys_isdir
    | apply obeys_lower_of
    | apply obeys_BlockBlobService
    | eapply obeys_bind; [ | intros ? _ | ] ].

(** ** What each operation does, step by step *)

Section Operations.

Variable env : Env.

Lemma create_pool_obeys self : obeys action (one [Creates Pool]) (create_pool env self).
Proof. apply (obeys_call action). Qed.

Lemma create_job_obeys self : obeys action (one [Creates Job]) (create_job env self).
Proof. apply (obeys_call action). Qed.

Lemma delete_job_obeys self : obeys action (one [Tears DeleteJob]) (delete_job env self).
Proof. apply (obeys_call action). Qed.

Lemma delete_pool_obeys self : obeys action (one [Tears DeletePool]) (delete_pool env self).
Proof. apply (obeys_call action). Qed.

Lemma can_return_lower_of (x : option string) (a : string) :
can_return (lower_of env x) a -> a = lower env (default EmptyString x).
Proof.
intros (w & w' & H). destruct x; simpl in H; inversion H. reflexivity.
Qed.

Lemma delete_input_container_obeys self :
obeys action (one [Tears (DeleteContainerNamed (input_container_of env (default EmptyString (job_name self))))])
  (delete_input_container env self).
Proof.
unfold delete_input_container.
eapply obeys_weaken.
- eapply obeys_bind; [apply obeys_lower_of | intros a Ha | ].
  + apply can_return_lower_of in Ha. subst a.
    eapply obeys_bind; [apply obeys_BlockBlobService | intros made _; apply obeys_call | inhabit].
  + inhabit.
- intros x H. unlang. reflexivity.
Qed.

Lemma download_container_obeys container_name output_dir :
obeys action (cat (one [Tears Download]) downloads)
  (download_container env container_name output_dir).
Proof.
unfold download_container.
eapply obeys_bind; [apply (obeys_call action) | intros generator _ | inhabit].
apply obeys_for_each. intros blob.
assert (Hget : forall p, obeys action downloads
          (call_ env (GetBlobToPath container_name (name blob) p))).
{ intros p. eapply obeys_weaken; [apply (obeys_call action) |].
  intros x ->. repeat constructor. }
destruct (PyStr.contains_char "/" (name blob)); [| apply Hget].
destruct (OsPath.split (name blob)) as [head tail].
eapply obeys_weaken; [| apply only_cat].
eapply obeys_bind; [ | intros there _ | inhabit].
- eapply obeys_weaken; [apply obeys_isdir | apply only_nil].
- destruct there; [apply Hget |].
  eapply obeys_weaken; [| apply only_cat].
  eapply obeys_bind; [ | intros ? _; apply Hget | inhabit].
  eapply obeys_weaken; [apply (obeys_makedirs action) |].
  intros x ->. repeat constructor.
Qed.

Lemma download_output_obeys self :
let out := output_container_of env (default EmptyString (job_name self)) in
obeys action (cat (cat (one [Tears Download]) downloads) (one [Tears (DeleteContainerNamed out)]))
  (download_output_files_and_delete_container env self).
Proof.
intros out. unfold download_output_files_and_delete_container.
eapply obeys_weaken.
- eapply obeys_bind; [apply obeys_lower_of | intros a Ha | ].
  + apply can_return_lower_of in Ha. subst a.
    eapply obeys_bind; [apply obeys_BlockBlobService | intros made _ | ].
    * eapply obeys_bind; [apply download_container_obeys | intros ? _ | ].
      -- apply (obeys_call action).
      -- inhabit.
    * inhabit.
  + inhabit.
- intros x H. unlang.
  match goal with Hd : downloads ?d |- _ =>
    exists (Tears Download :: d), [Tears (DeleteContainerNamed out)];
    split; [reflexivity | split; [| reflexivity]];
    exists [Tears Download], d; split; [reflexivity | split; [reflexivity | exact Hd]]
  end.
Qed.

Lemma create_resource_file_obeys file_to_upload input_container_name destination_dir :
obeys action (one []) (_create_resource_file env file_to_upload input_container_name destination_dir).
Proof.
unfold _create_resource_file.
eapply obeys_weaken.
- eapply obeys_bind; [apply (obeys_call action) | intros ? _ | ].
  + eapply obeys_bind; [apply (obeys_call action) | intros ? _ | ].
    * destruct destination_dir as [d |]; [destruct (PyStr.is_empty d) |]; apply obeys_ret.
    * inhabit.
  + inhabit.
- intros x H. unlang. reflexivity.
Qed.

Lemma upload_obeys self :
obeys action (one [Creates (Container (input_container_of env (default EmptyString (job_name self))))])
  (upload_input_to_blob_storage env self).
Proof.
unfold upload_input_to_blob_storage.
assert (Hfiles : forall files container dest resource_files,
          obeys action (only (fun _ => False))
            (for_each files (fun file_to_upload =>
               let* rf := _create_resource_file env file_to_upload container dest in
               list_append resource_files rf))).
{ intros. apply obeys_for_each. intros f.
  eapply obeys_weaken.
  - eapply obeys_bind;
      [apply create_resource_file_obeys | intros ? _; apply obeys_list_append | inhabit].
  - intros x H. unlang. constructor. }
eapply obeys_weaken.
- eapply obeys_bind; [apply obeys_new_list | intros resource_files _ | ].
  + eapply obeys_bind; [apply obeys_BlockBlobService | intros made _ | ].
    { eapply obeys_bind; [apply obeys_lower_of | intros a Ha | ].
    * apply can_return_lower_of in Ha. subst a.
      eapply obeys_bind; [apply (obeys_call action) | intros ? _ | ].
      -- eapply obeys_bind; [ | intros ? _; apply obeys_ret | inhabit].
         apply obeys_for_each with (P := fun _ => False). intros input_request.
         eapply obeys_weaken; [| apply only_cat].
         eapply obeys_bind; [ | intros ? _ | inhabit].
         ++ destruct (Nat.eqb _ 1); [apply Hfiles |].
            eapply obeys_weaken; [apply obeys_ret | apply only_nil].
         ++ destruct (Nat.ltb 1 _).
            ** apply obeys_for_each. intros thing. apply Hfiles.
            ** eapply obeys_weaken; [apply obeys_ret | apply only_nil].
      -- inhabit.
    * inhabit. }
    inhabit.
  + inhabit.
- intros x H. unlang.
  match goal with Hf : only _ ?l |- _ => destruct l; [reflexivity | inversion Hf; contradiction] end.
Qed.

Ltac next tac := eapply obeys_bind; [tac | intros ? _ | ].
Ltac call_as l := apply (obeys_call_as action l); reflexivity.
Ltac emit_as l := apply (obeys_emit_as action l); reflexivity.

Lemma create_task_obeys self input_files :
obeys action
  (one [Creates (Container (output_container_of env (default EmptyString (job_name self)))); Creates Task])
  (create_task env self input_files).
Proof.
unfold create_task.
eapply obeys_weaken.
- eapply obeys_bind; [apply obeys_BlockBlobService | intros made _ | ].
  1: eapply obeys_bind; [apply obeys_lower_of | intros a Ha | ].
  1: apply can_return_lower_of in Ha; subst a.
  1: next ltac:(apply (obeys_call action)).
  1: next ltac:(call_as (@nil Action)).
  1: next ltac:(apply obeys_list_append).
  1: next ltac:(apply obeys_list_read).
  1: call_as [Creates Task].
  all: inhabit.
- intros x H. unlang. reflexivity.
Qed.

Lemma wait_loop_obeys fuel self b :
obeys action (one []) (wait_loop env fuel self b).
Proof.
revert b. induction fuel as [| fuel IH]; intros b; simpl.
- destruct b; [apply obeys_ret |].
  apply obeys_silent; intros; simpl; [reflexivity | discriminate].
- destruct b; [apply obeys_ret |].
  eapply obeys_weaken.
  + eapply obeys_bind; [apply (obeys_call action) | intros ? _ | ].
    * eapply obeys_bind; [apply (obeys_emit action) | intros ? _; apply IH | inhabit].
    * inhabit.
  + intros x H. unlang. reflexivity.
Qed.

Lemma parse_configuration_error config_file config_options e :
parse_configuration config_file config_options = inl e ->
forall ev, e <> CallFailed ev.
Proof.
unfold parse_configuration. intros H ev ->.
destruct (parse_lines config_options (AzureBatch_init, [])) as [e' | [a u]] eqn:Hp.
- inversion H; subst. clear H.
  revert Hp. generalize (AzureBatch_init, @nil string).
  induction config_options as [| l ls IH]; intros st Hp; simpl in Hp; [discriminate |].
  destruct (PyStr.split ":=" (PyStr.rstrip l) !! 0%nat); [| discriminate].
  destruct (PyStr.split ":=" (PyStr.rstrip l) !! 1%nat); [| discriminate].
  eapply IH, Hp.
- destruct (Nat.ltb 0 (length u)); discriminate.
Qed.

Lemma parse_configuration_file_obeys config_file :
obeys action (one []) (parse_configuration_file env config_file).
Proof.
unfold parse_configuration_file.
eapply obeys_weaken.
- eapply obeys_bind; [apply (obeys_call action) | intros lines _ | ].
  + destruct (parse_configuration config_file lines) as [e | a] eqn:Hp.
    * apply obeys_raise. eapply parse_configuration_error, Hp.
    * apply obeys_ret.
  + inhabit.
- intros x H. unlang. reflexivity.
Qed.

Lemma can_return_parse config_file azurebatch :
can_return (parse_configuration_file env config_file) azurebatch ->
parse_configuration config_file (file_lines env config_file) = inr azurebatch.
Proof.
intros (w & w' & H). unfold parse_configuration_file, bind, call in H.
destruct (raises env (trace w) (ReadLines config_file)); [discriminate |].
destruct (parse_configuration config_file (file_lines env config_file)); simpl in H.
- discriminate.
- inversion H. reflexivity.
Qed.

Lemma check_no_attributes_none_obeys a :
obeys action (one []) (check_no_attributes_none a).
Proof.
unfold check_no_attributes_none.
destruct (Nat.ltb 0 _); [apply obeys_raise; discriminate | apply obeys_ret].
Qed.

Lemma downloads_repeat (x : list Action) :
downloads x -> x = repeat (Tears Download) (length x).
Proof.
induction 1 as [| a x Ha _ IH]; simpl; [reflexivity |]. rewrite Ha. f_equal. exact IH.
Qed.

Lemma main_obeys fuel args :
obeys action (run_lang env (configured_job_name env args) (download_output_files args))
  (main env fuel args).
Proof.
unfold main.
eapply obeys_weaken.
- next ltac:(emit_as (@nil Action)).
  1: eapply obeys_bind; [apply parse_configuration_file_obeys | intros azurebatch Hab | ].
  1: apply can_return_parse in Hab.
  1: assert (Hj : default EmptyString (job_name azurebatch) = configured_job_name env args)
       by (unfold configured_job_name; rewrite Hab; reflexivity).
  1: pose proof (upload_obeys azurebatch) as Hup.
  1: pose proof (create_task_obeys azurebatch) as Hct.
  1: pose proof (download_output_obeys azurebatch) as Hdl.
  1: pose proof (delete_input_container_obeys azurebatch) as Hdi.
  1: simpl in Hdl; rewrite Hj in Hup, Hct, Hdl, Hdi.
  1: next ltac:(apply check_no_attributes_none_obeys).
  1: next ltac:(emit_as (@nil Action)).
  1: next ltac:(apply Hup).
  1: next ltac:(emit_as (@nil Action)).
  1: next ltac:(apply create_pool_obeys).
  1: next ltac:(apply create_job_obeys).
  1: next ltac:(apply Hct).
  1: next ltac:(apply wait_loop_obeys).
  1: next ltac:(emit_as (@nil Action)).
  1: next ltac:(apply delete_job_obeys).
  1: next ltac:(apply delete_pool_obeys).
  1: next ltac:(emit_as (@nil Action)).
  1: next ltac:(apply obeys_if; [apply Hdl | apply obeys_ret]).
  1: apply Hdi.
  all: inhabit.
- intros x H. unlang. unfold run_lang, run_sequence, teardown_sequence.
  destruct (download_output_files args); unlang.
  + match goal with Hd : downloads ?d |- _ =>
      exists (length d); rewrite (downloads_repeat d Hd) at 1 end.
    simpl. rewrite !map_app, List.map_repeat. reflexivity.
  + exists 0%nat. reflexivity.
Qed.
End Operations.

(** ** Whole runs *)

Lemma omap_created_action (t : list Event) :
  omap created t = omap creation_of (omap action t).
Proof.
  induction t as [| ev t IH]; [reflexivity |].
  destruct ev; simpl; try f_equal; exact IH.
Qed.

Lemma omap_teardown_action (t : list Event) :
  omap teardown_step t = omap teardown_of (omap action t).
Proof.
  induction t as [| ev t IH]; [reflexivity |].
  destruct ev; simpl; try f_equal; exact IH.
Qed.

Lemma omap_creation_of_creates (l : list Resource) : omap creation_of (map Creates l) = l.
Proof. induction l as [| x l IH]; [reflexivity |]. simpl. f_equal. exact IH. Qed.

Lemma omap_creation_of_tears (l : list Step) : omap creation_of (map Tears l) = [].
Proof. induction l as [| x l IH]; [reflexivity | exact IH]. Qed.

Lemma omap_teardown_of_creates (l : list Resource) : omap teardown_of (map Creates l) = [].
Proof. induction l as [| x l IH]; [reflexivity | exact IH]. Qed.

Lemma omap_teardown_of_tears (l : list Step) : omap teardown_of (map Tears l) = l.
Proof. induction l as [| x l IH]; [reflexivity |]. simpl. f_equal. exact IH. Qed.

Lemma omap_creation_of_run env j dl n :
  omap creation_of (run_sequence env j dl n) = creation_sequence env j.
Proof.
  unfold run_sequence.
  rewrite omap_app, omap_creation_of_creates, omap_creation_of_tears. apply app_nil_r.
Qed.

Lemma omap_teardown_of_run env j dl n :
  omap teardown_of (run_sequence env j dl n) = teardown_sequence env j dl n.
Proof.
  unfold run_sequence.
  rewrite omap_app, omap_teardown_of_creates, omap_teardown_of_tears. reflexivity.
Qed.

(** What a whole run creates. *)
Lemma main_creation env fuel args w r w' :
  main env fuel args w = (r, w') ->
  exists t,
    trace w' = trace w ++ t
    /\ omap created t `prefix_of` creation_sequence env (configured_job_name env args)
    /\ (r = Ok tt -> omap created t = creation_sequence env (configured_job_name env args)).
Proof.
  intros Hrun.
  destruct (main_obeys env fuel args w r w' Hrun) as (t & Ht & ([y [n Hy]] & Hok & _)).
  exists t. split; [exact Ht |]. rewrite omap_created_action. split.
  - exists (omap creation_of y).
    rewrite <- omap_app, Hy. symmetry. apply omap_creation_of_run.
  - intros Hr. destruct (Hok tt Hr) as [m Hm]. rewrite Hm. apply omap_creation_of_run.
Qed.

(** What a whole run tears down, and where it stops when a call fails. *)
Lemma main_teardown env fuel args w r w' :
  main env fuel args w = (r, w') ->
  exists t n,
    trace w' = trace w ++ t
    /\ omap teardown_step t `prefix_of`
         teardown_sequence env (configured_job_name env args) (download_output_files args) n
    /\ (r = Ok tt ->
        omap teardown_step t =
          teardown_sequence env (configured_job_name env args) (download_output_files args) n)
    /\ (forall ev s, r = Raise (CallFailed ev) -> teardown_step ev = Some s ->
        exists before, omap teardown_step t = before ++ [s]).
Proof.
  intros Hrun.
  destruct (main_obeys env fuel args w r w' Hrun) as (t & Ht & ([y [n Hy]] & Hok & Hlast)).
  destruct r as [[] | e |].
  - destruct (Hok tt eq_refl) as [m Hm].
    exists t, m. split; [exact Ht |]. rewrite omap_teardown_action, Hm, omap_teardown_of_run.
    split; [reflexivity |]. split; [reflexivity |]. intros ev s He. discriminate He.
  - exists t, n. split; [exact Ht |]. rewrite omap_teardown_action. split.
    + exists (omap teardown_of y). rewrite <- omap_app, Hy. symmetry. apply omap_teardown_of_run.
    + split; [intros He; discriminate He |].
      intros ev s He Hs. destruct (Hlast ev He) as [t0 Ht0]. subst t.
      exists (omap teardown_step t0).
      rewrite <- omap_teardown_action, omap_app. simpl. rewrite Hs. reflexivity.
  - exists t, n. split; [exact Ht |]. rewrite omap_teardown_action. split.
    + exists (omap teardown_of y). rewrite <- omap_app, Hy. symmetry. apply omap_teardown_of_run.
    + split; [intros He; discriminate He |]. intros ev s He. discriminate He.
Qed.

Lemma append_inj_l (a b c : string) : a +:+ b = a +:+ c -> b = c.
Proof. induction a as [| ch a IH]; simpl; intros H; [exact H |]. injection H. exact IH. Qed.

Lemma input_is_not_output (env : Env) (j : string) : input_container_of env j <> output_container_of env j.
Proof. unfold input_container_of, output_container_of. intros H. apply append_inj_l in H. discriminate H. Qed.

Lemma elem_of_teardown_sequence (s : Step) env j dl n :
  s ∈ teardown_sequence env j dl n ->
  s = DeleteJob \/ s = DeletePool
  \/ (dl = true /\ (s = Download \/ s = DeleteContainerNamed (output_container_of env j)))
  \/ s = DeleteContainerNamed (input_container_of env j).
Proof.
  unfold teardown_sequence. rewrite !elem_of_app, !elem_of_cons, elem_of_nil.
  intros [[-> | [-> | []]] | [H | [-> | H]]]; auto.
  - destruct dl; [| inversion H]. right. right. left. split; [reflexivity |].
    rewrite elem_of_app, list_elem_of_singleton in H. destruct H as [H | ->]; auto.
    left. apply (list_elem_of_In _ s) in H. eapply repeat_spec, H.
  - inversion H.
Qed.

(** A step that occurs once in a sequence, found at the end of a
    beginning of it, fixes that beginning. *)
Lemma app_cons_unique {A} (a : A) (l y p q : list A) :
  a ∉ p -> a ∉ q -> l ++ a :: y = p ++ a :: q -> l = p /\ y = q.
Proof.
  revert p. induction l as [| c l IH]; intros [| b p] Hp Hq H; simpl in H.
  - inversion H. auto.
  - inversion H; subst. exfalso. apply Hp. constructor.
  - inversion H; subst. exfalso. apply Hq. rewrite elem_of_app. right. constructor.
  - injection H as -> H'. apply not_elem_of_cons in Hp as [_ Hp].
    destruct (IH p Hp Hq H') as [-> ->]. auto.
Qed.

Lemma not_in_rest_of_teardown (s : Step) (env : Env) (j : string) (dl : bool) (n : nat) :
  s <> Download -> s <> DeleteContainerNamed (output_container_of env j) ->
  s <> DeleteContainerNamed (input_container_of env j) ->
  s ∉ (if dl then repeat Download (S n) ++ [DeleteContainerNamed (output_container_of env j)]
       else @nil Step)
       ++ [DeleteContainerNamed (input_container_of env j)].
Proof.
  intros Hd Ho Hi. rewrite elem_of_app, list_elem_of_singleton. intros [H | H]; [| contradiction].
  destruct dl; [| inversion H].
  rewrite elem_of_app, list_elem_of_singleton in H. destruct H as [H | H]; [| contradiction].
  apply (list_elem_of_In _ s) in H. apply repeat_spec in H. contradiction.
Qed.

(** ** The sample run *)

Example sample_run_creates :
  fst (main Sample.env 3 Sample.args Sample.world) = Ok tt
  /\ omap created (trace (snd (main Sample.env 3 Sample.args Sample.world)))
     = [Container "myjob-input"; Pool; Job; Container "myjob-output"; Task].
Proof. split; vm_compute; reflexivity. Qed.

Example sample_run_tears_down :
  omap teardown_step (trace (snd (main Sample.env 3 Sample.args Sample.world)))
  = [DeleteJob; DeletePool; Download; Download; Download; Download;
     DeleteContainerNamed "myjob-output"; DeleteContainerNamed "myjob-input"].
Proof. vm_compute. reflexivity. Qed.

Example sample_run_skipping :
  fst (main Sample.env 3 Sample.args_skip Sample.world) = Ok tt
  /\ omap teardown_step (trace (snd (main Sample.env 3 Sample.args_skip Sample.world)))
     = [DeleteJob; DeletePool; DeleteContainerNamed "myjob-input"].
Proof. split; vm_compute; reflexivity. Qed.

Example sample_run_job_delete_fails :
  fst (main Sample.env_job_delete_fails 3 Sample.args Sample.world)
  = Raise (CallFailed (JobDelete (Some "MyJob")))
  /\ omap teardown_step
       (trace (snd (main Sample.env_job_delete_fails 3 Sample.args Sample.world)))
     = [DeleteJob].
Proof. split; vm_compute; reflexivity. Qed.

Example sample_job_name : configured_job_name Sample.env Sample.args = "MyJob".
Proof. vm_compute. reflexivity. Qed.

Example sample_job_name_skip : configured_job_name Sample.env Sample.args_skip = "MyJob".
Proof. vm_compute. reflexivity. Qed.

(** ** Teardown: claims C1, C2, C3 *)

(** C1, as the specification states it, fails: when deleting the job
    raises, the run ends there and nothing else is deleted. *)
Lemma teardown_is_not_best_effort :
  ~ teardown_is_best_effort Sample.env_job_delete_fails 3 Sample.args Sample.world.
Proof.
  intros H.
  destruct (H _ _ (trace (snd (main Sample.env_job_delete_fails 3 Sample.args Sample.world)))
              (surjective_pairing _) eq_refl) as [Hpool _].
  - vm_compute. constructor.
  - vm_compute in Hpool. inversion Hpool; subst.
    match goal with Hn : _ ∈ [] |- _ => inversion Hn end.
Qed.

(** C1 (amended): the deletions of the teardown are attempted one after
    the other, and a deletion that raises ends the run: when deleting the
    job raises, neither the pool nor a container is deleted; when deleting
    the pool raises, no container is deleted; when deleting the output
    container raises, the input container is not deleted. *)
Theorem failed_deletion_ends_teardown env fuel args w :
  let run := main env fuel args w in
  let j := configured_job_name env args in
  exists t,
    trace (snd run) = trace w ++ t
    /\ (forall x, fst run = Raise (CallFailed (JobDelete x)) ->
        omap teardown_step t = [DeleteJob])
    /\ (forall x, fst run = Raise (CallFailed (PoolDelete x)) ->
        omap teardown_step t = [DeleteJob; DeletePool])
    /\ (fst run = Raise (CallFailed (DeleteContainer (output_container_of env j))) ->
        DeleteContainerNamed (input_container_of env j) ∉ omap teardown_step t).
Proof.
  intros run j.
  destruct (main_teardown env fuel args w (fst run) (snd run) (surjective_pairing _))
    as (t & n & Ht & [y Hy] & _ & Hlast).
  fold j in Hy. exists t. split; [exact Ht |].
  unfold teardown_sequence in Hy. symmetry in Hy.
  pose proof (input_is_not_output env j) as Hio.
  split; [| split].
  - intros x Hr. destruct (Hlast _ DeleteJob Hr eq_refl) as [before Hb].
    rewrite Hb in Hy |- *. rewrite <- app_assoc in Hy.
    apply (app_cons_unique DeleteJob before y [] (DeletePool :: _)) in Hy as [-> _];
      [reflexivity | apply not_elem_of_nil |].
    apply not_elem_of_cons. split; [discriminate |].
    apply not_in_rest_of_teardown; discriminate.
  - intros x Hr. destruct (Hlast _ DeletePool Hr eq_refl) as [before Hb].
    rewrite Hb in Hy |- *. rewrite <- app_assoc in Hy.
    apply (app_cons_unique DeletePool before y [DeleteJob] _) in Hy as [-> _];
      [reflexivity | |].
    + apply not_elem_of_cons. split; [discriminate | apply not_elem_of_nil].
    + apply not_in_rest_of_teardown; discriminate.
  - intros Hr.
    destruct (Hlast _ (DeleteContainerNamed (output_container_of env j)) Hr eq_refl) as [before Hb].
    rewrite Hb in Hy |- *. rewrite <- app_assoc in Hy.
    destruct (download_output_files args).
    + rewrite <- (app_assoc (repeat Download (S n))), (app_assoc [DeleteJob; DeletePool]) in Hy.
      apply (app_cons_unique (DeleteContainerNamed (output_container_of env j)) before y
               ([DeleteJob; DeletePool] ++ repeat Download (S n))
               [DeleteContainerNamed (input_container_of env j)]) in Hy as [-> _].
      * rewrite !elem_of_app, !elem_of_cons, elem_of_nil.
        intros [[[H | [H | []]] | H] | [H | []]]; try discriminate H.
        -- apply (list_elem_of_In _ _) in H. apply repeat_spec in H. discriminate H.
        -- injection H as H. exact (Hio H).
      * rewrite elem_of_app, !elem_of_cons, elem_of_nil.
        intros [[H | [H | []]] | H]; try discriminate H.
        apply (list_elem_of_In _ _) in H. apply repeat_spec in H. discriminate H.
      * rewrite list_elem_of_singleton. intros H. injection H as H. exact (Hio (eq_sym H)).
    + exfalso.
      assert (Hin : DeleteContainerNamed (output_container_of env j)
                      ∈ before ++ [DeleteContainerNamed (output_container_of env j)] ++ y).
      { rewrite elem_of_app. right. constructor. }
      rewrite Hy in Hin. simpl in Hin.
      rewrite !elem_of_cons, elem_of_nil in Hin.
      destruct Hin as [H | [H | [H | []]]]; try discriminate H.
      injection H as H. exact (Hio (eq_sym H)).
Qed.

Lemma failed_deletion_ends_teardown_witness :
  omap teardown_step
    (trace (snd (main Sample.env_job_delete_fails 3 Sample.args Sample.world)))
  = [DeleteJob].
Proof.
  destruct (failed_deletion_ends_teardown
              Sample.env_job_delete_fails 3 Sample.args Sample.world)
    as (t & Ht & Hjob & _).
  change (trace Sample.world ++ t) with t in Ht. rewrite Ht.
  apply (Hjob (Some "MyJob")). vm_compute. reflexivity.
Defined.

(** C2, as the specification states it, fails: the download does not
    come first, the job is deleted before it. *)
Lemma teardown_not_in_claimed_order :
  ~ teardown_in_claimed_order Sample.env 3 Sample.args Sample.world.
Proof.
  intros H.
  destruct (H _ _ (trace (snd (main Sample.env 3 Sample.args Sample.world)))
              (surjective_pairing _) eq_refl) as [n [k Hk]].
  vm_compute in Hk. discriminate Hk.
Qed.

(** C2 (amended): the teardown steps of every run come in this order:
    the job is deleted, then the pool, then (when the download is
    requested) the contents of the output container are downloaded and the
    output container is deleted, then the input container is deleted.  A
    run that ends early has done a beginning of this sequence, a run that
    returns has done all of it. *)
Theorem teardown_order env fuel args w :
  let run := main env fuel args w in
  let j := configured_job_name env args in
  exists t n,
    trace (snd run) = trace w ++ t
    /\ omap teardown_step t `prefix_of` teardown_sequence env j (download_output_files args) n
    /\ (fst run = Ok tt ->
        omap teardown_step t = teardown_sequence env j (download_output_files args) n).
Proof.
  intros run j.
  destruct (main_teardown env fuel args w (fst run) (snd run) (surjective_pairing _))
    as (t & n & Ht & Hpre & Hok & _).
  exists t, n. auto.
Qed.

Lemma teardown_order_witness :
  exists n,
    omap teardown_step (trace (snd (main Sample.env 3 Sample.args Sample.world)))
    = teardown_sequence Sample.env "MyJob" true n.
Proof.
  destruct (teardown_order Sample.env 3 Sample.args Sample.world) as (t & n & Ht & _ & Hok).
  change (trace Sample.world ++ t) with t in Ht. rewrite Ht.
  exists n. apply Hok. vm_compute. reflexivity.
Defined.

(** C3, as the specification states it, fails: with the flag that skips
    the download the output container is not deleted. *)
Lemma skip_does_not_delete_output_container :
  ~ skip_still_deletes_output_container Sample.env 3 "job.cfg" Sample.world.
Proof.
  intros H.
  destruct (H (snd (main Sample.env 3 Sample.args_skip Sample.world))
              (trace (snd (main Sample.env 3 Sample.args_skip Sample.world))))
    as [_ Hout].
  - vm_compute. reflexivity.
  - reflexivity.
  - change (parse_args "job.cfg" true) with Sample.args_skip in Hout.
    rewrite (proj2 sample_run_skipping), sample_job_name_skip in Hout.
    rewrite !elem_of_cons, elem_of_nil in Hout.
    destruct Hout as [Hs | [Hs | [Hs | []]]]; discriminate Hs.
Qed.

(** C3 (amended): with the flag that skips the download, no run downloads
    anything and no run deletes the output container, which stays in
    remote storage with the outputs; a run that returns has deleted the
    job, the pool and the input container. *)
Theorem skip_download_keeps_output_container env fuel config_file w :
  let args := parse_args config_file true in
  let run := main env fuel args w in
  let j := configured_job_name env args in
  exists t,
    trace (snd run) = trace w ++ t
    /\ (Download ∉ omap teardown_step t)
    /\ (DeleteContainerNamed (output_container_of env j) ∉ omap teardown_step t)
    /\ (fst run = Ok tt ->
        omap teardown_step t = [DeleteJob; DeletePool; DeleteContainerNamed (input_container_of env j)]).
Proof.
  intros args run j.
  destruct (main_teardown env fuel args w (fst run) (snd run) (surjective_pairing _))
    as (t & n & Ht & [y Hy] & Hok & _).
  fold j in Hy, Hok. exists t. split; [exact Ht |].
  assert (Hin : forall s, s ∈ omap teardown_step t ->
                  s = DeleteJob \/ s = DeletePool \/ s = DeleteContainerNamed (input_container_of env j)).
  { intros s Hs.
    assert (Hs' : s ∈ teardown_sequence env j (download_output_files args) n)
      by (rewrite Hy, elem_of_app; left; exact Hs).
    apply elem_of_teardown_sequence in Hs'.
    destruct Hs' as [? | [? | [[Hdl _] | ?]]]; auto. discriminate Hdl. }
  split; [| split].
  - intros H. destruct (Hin _ H) as [? | [? | ?]]; discriminate.
  - intros H. destruct (Hin _ H) as [? | [? | He]]; try discriminate.
    injection He as He. exact (input_is_not_output env j (eq_sym He)).
  - exact Hok.
Qed.

Lemma skip_download_keeps_output_container_witness :
  omap teardown_step (trace (snd (main Sample.env 3 (parse_args "job.cfg" true) Sample.world)))
  = [DeleteJob; DeletePool;
     DeleteContainerNamed
       (input_container_of Sample.env (configured_job_name Sample.env (parse_args "job.cfg" true)))].
Proof.
  destruct (skip_download_keeps_output_container Sample.env 3 "job.cfg" Sample.world)
    as (t & Ht & _ & _ & Hok).
  change (trace Sample.world ++ t) with t in Ht. rewrite Ht.
  apply Hok. vm_compute. reflexivity.
Defined.

(** ** Creation: claim C4 *)

(** C4, as the specification states it, fails: the output container is
    not created last, it is created before the task. *)
Lemma creation_not_in_claimed_order :
  ~ creates_in_claimed_order Sample.env 3 Sample.args Sample.world.
Proof.
  intros H.
  destruct (H _ _ (trace (snd (main Sample.env 3 Sample.args Sample.world)))
              (surjective_pairing _) eq_refl) as [k Hk].
  vm_compute in Hk. discriminate Hk.
Qed.

(** C4 (amended): in every run the remote resources are created in the
    order input container, pool, job, output container, task: the output
    container is created before the task that writes to it.  A run that
    ends early has created a beginning of this sequence, a run that
    returns has created all of it. *)
Theorem creation_order env fuel args w :
  let run := main env fuel args w in
  let j := configured_job_name env args in
  exists t,
    trace (snd run) = trace w ++ t
    /\ omap created t `prefix_of` creation_sequence env j
    /\ (fst run = Ok tt -> omap created t = creation_sequence env j).
Proof.
  intros run j.
  exact (main_creation env fuel args w (fst run) (snd run) (surjective_pairing _)).
Qed.

Lemma creation_order_witness :
  omap created (trace (snd (main Sample.env 3 Sample.args Sample.world)))
  = creation_sequence Sample.env (configured_job_name Sample.env Sample.args).
Proof.
  destruct (creation_order Sample.env 3 Sample.args Sample.world) as (t & Ht & _ & Hok).
  change (trace Sample.world ++ t) with t in Ht. rewrite Ht.
  apply Hok. vm_compute. reflexivity.
Defined.

(** ** The completion poller: claim C6 *)

Lemma all_completed_false_from (tasks : list CloudTask) :
  fold_left
    (fun (all_tasks_completed : bool) task =>
       match state task with completed => all_tasks_completed | _ => false end)
    tasks false = false.
Proof.
  induction tasks as [| task tasks IH]; [reflexivity |].
  simpl. destruct (state task); exact IH.
Qed.

Lemma all_completed_cons (task : CloudTask) (tasks : list CloudTask) :
  all_completed (task :: tasks) =
    match state task with completed => all_completed tasks | _ => false end.
Proof.
  unfold all_completed. simpl.
  destruct (state task); try apply all_completed_false_from; reflexivity.
Qed.

Lemma all_completed_spec (tasks : list CloudTask) :
  all_completed tasks = true <-> all_terminal tasks.
Proof.
  unfold all_terminal. induction tasks as [| task tasks IH].
  - split; [constructor | reflexivity].
  - rewrite all_completed_cons, Forall_cons.
    destruct (state task); rewrite ?IH; split;
      try discriminate; try (intros [H _]; discriminate H); auto.
    intros [_ H]. exact H.
Qed.

Lemma all_completed_by_state (tasks tasks' : list CloudTask) :
  map state tasks = map state tasks' -> all_completed tasks = all_completed tasks'.
Proof.
  revert tasks'. induction tasks as [| task tasks IH]; intros [| task' tasks'] H;
    try discriminate H; [reflexivity |].
  simpl in H. injection H as Hs Ht.
  rewrite !all_completed_cons, Hs, (IH _ Ht). reflexivity.
Qed.

Section Poller.

Variable env : Env.

Lemma wait_loop_done fuel self w : wait_loop env fuel self true w = (Ok tt, w).
Proof. destruct fuel; reflexivity. Qed.

Lemma after_rounds_0 w job : after_rounds w job 0 = w.
Proof. unfold after_rounds. simpl. rewrite app_nil_r. destruct w; reflexivity. Qed.

Lemma after_rounds_S w job k :
  after_rounds w job (S k)
  = after_rounds (record_call (record_call w (TaskList job)) (Sleep 30)) job k.
Proof. unfold after_rounds. simpl. rewrite <- !app_assoc. reflexivity. Qed.

Lemma rounds_shift (t0 : list Event) job k :
  ((t0 ++ [TaskList job]) ++ [Sleep 30]) ++ poll_rounds job k = t0 ++ poll_rounds job (S k).
Proof. simpl. rewrite <- !app_assoc. reflexivity. Qed.

(** The poller returns exactly after the first round in which every
    listed task is completed, provided that round comes within the
    fuel and no listing up to it fails. *)
Lemma wait_loop_returns fuel self w w' :
  wait_loop env fuel self false w = (Ok tt, w') <->
  exists n,
    n < fuel
    /\ (forall k, k <= n -> listing_fails env (trace w) (job_name self) k = false)
    /\ all_completed (listing env (trace w) (job_name self) n) = true
    /\ (forall k, k < n -> all_completed (listing env (trace w) (job_name self) k) = false)
    /\ w' = after_rounds w (job_name self) (S n).
Proof.
  revert w w'. induction fuel as [| fuel IH]; intros w w'.
  - simpl. split; [discriminate |]. intros (n & Hn & _). lia.
  - cbn [wait_loop]. unfold bind, call, emit.
    assert (H0 : trace w ++ poll_rounds (job_name self) 0 = trace w) by apply app_nil_r.
    destruct (raises env (trace w) (TaskList (job_name self))) eqn:Hr.
    + split; [discriminate |]. intros (n & _ & Hf & _).
      specialize (Hf 0%nat ltac:(lia)). unfold listing_fails in Hf. rewrite H0 in Hf. congruence.
    + destruct (all_completed (tasks_listed env (trace w) (job_name self))) eqn:Hc.
      * rewrite wait_loop_done. split.
        -- intros Heq. inversion Heq; subst. exists 0%nat.
           unfold listing, listing_fails. repeat split.
           ++ lia.
           ++ intros k Hk. assert (k = 0)%nat as -> by lia. rewrite H0. exact Hr.
           ++ rewrite H0. exact Hc.
           ++ intros k Hk. lia.
           ++ rewrite after_rounds_S, after_rounds_0. reflexivity.
        -- intros (n & _ & _ & _ & Hfirst & ->). destruct n as [| n].
           ++ rewrite after_rounds_S, after_rounds_0. reflexivity.
           ++ specialize (Hfirst 0%nat ltac:(lia)). unfold listing in Hfirst.
              rewrite H0 in Hfirst. congruence.
      * rewrite IH. simpl trace. unfold listing, listing_fails. split.
        -- intros (n & Hn & Hf & Hall & Hfirst & ->). exists (S n). repeat split.
           ++ lia.
           ++ intros [| k] Hk; [rewrite H0; exact Hr |].
              rewrite <- rounds_shift. apply Hf. lia.
           ++ rewrite <- rounds_shift. exact Hall.
           ++ intros [| k] Hk; [rewrite H0; exact Hc |].
              rewrite <- rounds_shift. apply Hfirst. lia.
           ++ rewrite (after_rounds_S w). reflexivity.
        -- intros (n & Hn & Hf & Hall & Hfirst & ->). destruct n as [| n].
           ++ rewrite H0 in Hall. congruence.
           ++ exists n. repeat split.
              ** lia.
              ** intros k Hk. rewrite rounds_shift. apply Hf. lia.
              ** rewrite rounds_shift. exact Hall.
              ** intros k Hk. rewrite rounds_shift. apply Hfirst. lia.
              ** rewrite (after_rounds_S w). reflexivity.
Qed.

End Poller.

(** C6: the completion poller returns exactly after the first round in
    which every task listed for the job is in the state [completed]: it
    returns after such a round and after no round in which some listed
    task is in another state (given fuel for that many rounds, and
    listings that do not fail).  With one task it returns on the first
    observation of that task as completed.  Only the state of a task is
    looked at, whatever its exit code. *)
Theorem poller_returns_when_all_completed env fuel self w :
  let job := job_name self in
  (forall w',
     wait_for_tasks_to_complete env fuel self w = (Ok tt, w') <->
     exists n,
       n < fuel
       /\ (forall k, k <= n -> listing_fails env (trace w) job k = false)
       /\ all_terminal (listing env (trace w) job n)
       /\ (forall k, k < n -> ~ all_terminal (listing env (trace w) job k))
       /\ w' = after_rounds w job (S n))
  /\ (forall n task,
        n < fuel ->
        (forall k, k <= n -> listing_fails env (trace w) job k = false) ->
        listing env (trace w) job n = [task] ->
        state task = completed ->
        (forall k, k < n ->
           exists task', listing env (trace w) job k = [task'] /\ state task' <> completed) ->
        wait_for_tasks_to_complete env fuel self w = (Ok tt, after_rounds w job (S n)))
  /\ (forall tasks tasks',
        map state tasks = map state tasks' -> all_completed tasks = all_completed tasks').
Proof.
  intros job.
  assert (Hiff : forall w',
     wait_for_tasks_to_complete env fuel self w = (Ok tt, w') <->
     exists n,
       n < fuel
       /\ (forall k, k <= n -> listing_fails env (trace w) job k = false)
       /\ all_terminal (listing env (trace w) job n)
       /\ (forall k, k < n -> ~ all_terminal (listing env (trace w) job k))
       /\ w' = after_rounds w job (S n)).
  { intros w'. unfold wait_for_tasks_to_complete. rewrite wait_loop_returns. fold job.
    split; intros (n & Hn & Hf & Hall & Hfirst & Hw); exists n; repeat split; auto.
    - apply all_completed_spec, Hall.
    - intros k Hk Hterm. apply all_completed_spec in Hterm.
      rewrite (Hfirst k Hk) in Hterm. discriminate Hterm.
    - apply all_completed_spec, Hall.
    - intros k Hk. destruct (all_completed (listing env (trace w) job k)) eqn:Hc; [| reflexivity].
      exfalso. apply (Hfirst k Hk), all_completed_spec, Hc. }
  split; [exact Hiff |]. split; [| apply all_completed_by_state].
  intros n task Hn Hf Hl Hs Hbefore. apply Hiff. exists n. repeat split; auto.
  - rewrite Hl. constructor; [exact Hs | constructor].
  - intros k Hk Hterm. destruct (Hbefore k Hk) as (task' & Hl' & Hs').
    rewrite Hl' in Hterm. inversion Hterm; subst. contradiction.
Qed.

Example sample_task_exit_code :
  map exit_code (listing Sample.env [] (Some "MyJob") 1) = [Some 1%Z].
Proof. reflexivity. Qed.

Lemma poller_returns_when_all_completed_witness :
  wait_for_tasks_to_complete Sample.env 3
    (set_job_name "MyJob" AzureBatch_init) Sample.world
  = (Ok tt, after_rounds Sample.world (Some "MyJob") 2).
Proof.
  destruct (poller_returns_when_all_completed Sample.env 3
              (set_job_name "MyJob" AzureBatch_init) Sample.world) as (_ & Hone & _).
  apply (Hone 1%nat {| cloud_task_id := "Task1"; state := completed; exit_code := Some 1%Z |}).
  - lia.
  - intros k Hk. reflexivity.
  - reflexivity.
  - reflexivity.
  - intros k Hk. assert (k = 0)%nat as -> by lia.
    exists {| cloud_task_id := "Task1"; state := running; exit_code := None |}.
    split; [reflexivity | discriminate].
Defined.

(** ** The configuration file: claim C9 *)

Lemma append_cons (c : ascii) (s t : string) : String c s +:+ t = String c (s +:+ t).
Proof. reflexivity. Qed.

Lemma append_empty_r (s : string) : s +:+ EmptyString = s.
Proof. induction s as [| c s IH]; [reflexivity |]. rewrite append_cons, IH. reflexivity. Qed.

Lemma snoc_append (cur : string) (c : ascii) (s : string) :
  PyStr.snoc cur c +:+ s = cur +:+ String c s.
Proof.
  unfold PyStr.snoc. induction cur as [| d cur IH]; [reflexivity |].
  rewrite !append_cons, IH. reflexivity.
Qed.

(** Without an occurrence of the separator there is one piece. *)
Lemma split_without_separator (sep cur s : string) :
  contains sep s = false -> PyStr.split_aux sep 0 cur s = [cur +:+ s].
Proof.
  revert cur. induction s as [| c s IH]; intros cur H.
  - simpl. rewrite append_empty_r. reflexivity.
  - cbn [contains] in H. apply orb_false_iff in H as [Hstart Hrest].
    cbn [PyStr.split_aux]. rewrite Hstart, (IH _ Hrest), snoc_append. reflexivity.
Qed.

Lemma split_aux_not_nil (sep : string) (skip : nat) (cur s : string) :
  PyStr.split_aux sep skip cur s <> [].
Proof.
  revert skip cur. induction s as [| c s IH]; intros skip cur; simpl; [discriminate |].
  destruct skip; [| apply IH].
  destruct (PyStr.startswith sep (String c s)); [discriminate | apply IH].
Qed.

(** With an occurrence of the (non-empty) separator there are at least
    two pieces. *)
Lemma split_with_separator (sep cur s : string) :
  sep <> EmptyString -> contains sep s = true -> 2 <= length (PyStr.split_aux sep 0 cur s).
Proof.
  intros Hsep. revert cur. induction s as [| c s IH]; intros cur H.
  - destruct sep; [contradiction | discriminate H].
  - cbn [contains] in H. cbn [PyStr.split_aux].
    destruct (PyStr.startswith sep (String c s)) eqn:Hstart.
    + simpl.
      pose proof (split_aux_not_nil sep (String.length sep - 1) EmptyString s) as Hne.
      destruct (PyStr.split_aux sep (String.length sep - 1) EmptyString s); [contradiction | simpl; lia].
    + simpl in H. apply IH, H.
Qed.

Lemma split_first (sep s : string) : is_Some (PyStr.split sep s !! 0%nat).
Proof.
  unfold PyStr.split. pose proof (split_aux_not_nil sep 0 EmptyString s) as H.
  destruct (PyStr.split_aux sep 0 EmptyString s); [contradiction | eexists; reflexivity].
Qed.

Lemma split_second (sep s : string) :
  sep <> EmptyString -> (PyStr.split sep s !! 1%nat = None <-> contains sep s = false).
Proof.
  intros Hsep. unfold PyStr.split. split.
  - intros H. destruct (contains sep s) eqn:Hc; [| reflexivity].
    pose proof (split_with_separator sep EmptyString s Hsep Hc) as Hlen.
    apply lookup_ge_None in H. lia.
  - intros H. rewrite (split_without_separator _ _ _ H). reflexivity.
Qed.

Lemma startswith_eq_rstrip (s : string) :
  PyStr.startswith "=" (PyStr.rstrip s) = PyStr.startswith "=" s.
Proof.
  destruct s as [| d s]; [reflexivity |]. cbn [PyStr.rstrip].
  destruct (Ascii.eqb_spec "=" d) as [<- | Hd].
  - reflexivity.
  - apply Ascii.eqb_neq in Hd.
    destruct (PyStr.is_space d && PyStr.is_empty (PyStr.rstrip s));
      cbn [PyStr.startswith]; rewrite Hd; reflexivity.
Qed.

(** Stripping the end of a line neither removes nor makes a separator. *)
Lemma contains_separator_rstrip (line : string) :
  contains ":=" (PyStr.rstrip line) = contains ":=" line.
Proof.
  induction line as [| c line IH]; [reflexivity |].
  cbn [PyStr.rstrip].
  destruct (PyStr.is_space c && PyStr.is_empty (PyStr.rstrip line)) eqn:Hstrip.
  - apply andb_true_iff in Hstrip as [Hc He].
    destruct (PyStr.rstrip line); [| discriminate He].
    cbn [contains]. rewrite <- IH. cbn [contains PyStr.startswith].
    destruct (Ascii.eqb_spec ":" c) as [<- | Hne]; [discriminate Hc | reflexivity].
  - cbn [contains]. rewrite IH. f_equal.
    change (PyStr.startswith ":=" (String c (PyStr.rstrip line)))
      with (Ascii.eqb ":" c && PyStr.startswith "=" (PyStr.rstrip line)).
    rewrite startswith_eq_rstrip. reflexivity.
Qed.

Lemma parse_lines_error config_options st e :
  parse_lines config_options st = inl e -> e = IndexError.
Proof.
  revert st. induction config_options as [| line rest IH]; intros st H; simpl in H.
  - discriminate H.
  - destruct (PyStr.split ":=" (PyStr.rstrip line) !! 0%nat); [| congruence].
    destruct (PyStr.split ":=" (PyStr.rstrip line) !! 1%nat); [| congruence].
    eapply IH, H.
Qed.

Lemma parse_lines_IndexError config_options st :
  (exists e, parse_lines config_options st = inl e)
  <-> exists line, line ∈ config_options /\ has_separator line = false.
Proof.
  revert st. induction config_options as [| line rest IH]; intros st.
  - simpl. split; [intros [e H]; discriminate H |].
    intros (line & Hin & _). inversion Hin.
  - cbn [parse_lines].
    destruct (split_first ":=" (PyStr.rstrip line)) as [option Ho]. rewrite Ho.
    destruct (PyStr.split ":=" (PyStr.rstrip line) !! 1%nat) as [parameter |] eqn:Hp.
    + assert (Hsep : has_separator line = true).
      { unfold has_separator. destruct (contains ":=" (PyStr.rstrip line)) eqn:Hc; [reflexivity |].
        apply split_second in Hc; [congruence | discriminate]. }
      rewrite IH. split.
      * intros (l & Hin & Hl). exists l. split; [right; exact Hin | exact Hl].
      * intros (l & Hin & Hl). apply elem_of_cons in Hin as [-> | Hin]; [congruence |].
        exists l. auto.
    + apply split_second in Hp; [| discriminate]. split.
      * intros _. exists line. split; [left | exact Hp].
      * intros _. exists IndexError. reflexivity.
Qed.

Lemma parse_configuration_IndexError config_file config_options :
  parse_configuration config_file config_options = inl IndexError
  <-> exists line, line ∈ config_options /\ has_separator line = false.
Proof.
  rewrite <- (parse_lines_IndexError config_options (AzureBatch_init, [])).
  unfold parse_configuration.
  destruct (parse_lines config_options (AzureBatch_init, [])) as [e | [a u]] eqn:Hp.
  - rewrite (parse_lines_error _ _ _ Hp). split; [eauto | reflexivity].
  - split.
    + destruct (Nat.ltb 0 (length u)); discriminate.
    + intros [e He]. discriminate He.
Qed.

(** C9: a configuration file with a line that lacks [:=] (a blank line is
    one) makes [parse_configuration_file] raise [IndexError], whatever
    else the file holds; the parser returns an object or reports
    unrecognized options only when every line has the separator. *)
Theorem missing_separator_raises_IndexError config_file config_options :
  (parse_configuration config_file config_options = inl IndexError
   <-> exists line, line ∈ config_options /\ has_separator line = false)
  /\ (forall line, has_separator line = contains ":=" line)
  /\ (forall line,
        line ∈ config_options -> PyStr.rstrip line = EmptyString ->
        parse_configuration config_file config_options = inl IndexError)
  /\ ((forall line, line ∈ config_options -> has_separator line = true)
      <-> (exists azurebatch, parse_configuration config_file config_options = inr azurebatch)
          \/ (exists options,
                parse_configuration config_file config_options
                = inl (AttributeError_unrecognized config_file options)))
  /\ (forall env w,
        file_lines env config_file = config_options ->
        raises env (trace w) (ReadLines config_file) = false ->
        (fst (parse_configuration_file env config_file w) = Raise IndexError
         <-> exists line, line ∈ config_options /\ has_separator line = false)).
Proof.
  pose proof (parse_configuration_IndexError config_file config_options) as Hiff.
  split; [exact Hiff |]. split; [intros line; apply contains_separator_rstrip |].
  split; [| split].
  - intros line Hin Hblank. apply Hiff. exists line. split; [exact Hin |].
    unfold has_separator. rewrite Hblank. reflexivity.
  - split.
    + intros Hall.
      assert (Hno : parse_configuration config_file config_options <> inl IndexError).
      { intros H. apply Hiff in H as (line & Hin & Hl). rewrite (Hall line Hin) in Hl. discriminate Hl. }
      unfold parse_configuration in *.
      destruct (parse_lines config_options (AzureBatch_init, [])) as [e | [a u]] eqn:Hp.
      * rewrite (parse_lines_error _ _ _ Hp) in Hno. contradiction.
      * destruct (Nat.ltb 0 (length u)); eauto.
    + intros Hres line Hin. destruct (has_separator line) eqn:Hl; [reflexivity |].
      assert (Hidx : parse_configuration config_file config_options = inl IndexError)
        by (apply Hiff; eauto).
      rewrite Hidx in Hres. destruct Hres as [[a Ha] | [o Ho]]; discriminate.
  - intros env w Hlines Hread. rewrite <- Hiff.
    unfold parse_configuration_file, bind, call. rewrite Hread, Hlines.
    destruct (parse_configuration config_file config_options) as [e | a]; simpl.
    + split; intros H; congruence.
    + split; intros H; discriminate H.
Qed.

Lemma missing_separator_raises_IndexError_witness :
  parse_configuration "job.cfg" (Sample.config_lines ++ [Sample.newline; "COLOUR:=red"])
  = inl IndexError.
Proof.
  destruct (missing_separator_raises_IndexError "job.cfg"
              (Sample.config_lines ++ [Sample.newline; "COLOUR:=red"])) as (_ & _ & Hblank & _).
  apply (Hblank Sample.newline).
  - vm_compute. repeat constructor.
  - reflexivity.
Defined.

(** ** The task's resource files: claim C10 *)

(** C10: a call of [create_task] that gets to submitting the task has
    appended the fixed resource file [confindr.tar.gz] to the list object
    it was given, so the caller's list is one longer afterwards, and the
    task it submits carries that list: one resource file more than the
    caller staged.  (A call that raises before the [append] leaves the
    list as it was.) *)
Theorem create_task_appends_confindr env self (input_files : ref) w
    (files : list ResourceFile) :
  heap w !! input_files = Some files ->
  let run := create_task env self input_files w in
  exists t,
    trace (snd run) = trace w ++ t
    /\ (forall job task,
          TaskAdd job task ∈ t ->
          resource_files task = files ++ [confindr_database]
          /\ length (resource_files task) = S (length files)
          /\ heap (snd run) !! input_files = Some (files ++ [confindr_database]))
    /\ (forall u, fst run = Ok u -> exists task, TaskAdd (job_name self) task ∈ t)
    /\ (heap (snd run) !! input_files = Some (files ++ [confindr_database])
        \/ heap (snd run) !! input_files = Some files /\ fst run <> Ok tt)
    /\ file_path confindr_database = "confindr.tar.gz".
Proof.
  intros Hfiles run. subst run.
  assert (Hlen : input_files < length (heap w)) by (eapply lookup_lt_Some, Hfiles).
  assert (Hearly : forall e : exn,
            exists t,
              trace w = trace w ++ t
              /\ (forall job task,
                    TaskAdd job task ∈ t ->
                    resource_files task = files ++ [confindr_database]
                    /\ length (resource_files task) = S (length files)
                    /\ heap w !! input_files = Some (files ++ [confindr_database]))
              /\ (forall u : unit, @Raise unit e = Ok u ->
                    exists task, TaskAdd (job_name self) task ∈ t)
              /\ (heap w !! input_files = Some (files ++ [confindr_database])
                  \/ heap w !! input_files = Some files /\ @Raise unit e <> Ok tt)
              /\ file_path confindr_database = "confindr.tar.gz").
  { intros e. exists []. rewrite app_nil_r. split; [reflexivity |].
    split; [intros job task H; inversion H |].
    split; [discriminate |]. split; [| reflexivity].
    right. split; [exact Hfiles | discriminate]. }
  unfold create_task, bind, BlockBlobService, lower_of, call_, call, list_append, list_read,
    ret, raise.
  destruct (storage_account_name self) as [[| c account] |]; simpl;
    [apply Hearly | | apply Hearly].
  destruct (job_name self) as [j |]; simpl; [| apply Hearly].
  destruct (raises env (trace w) _); simpl.
  { eexists. split; [reflexivity |].
    split; [intros job task H; apply list_elem_of_singleton in H; discriminate H |].
    split; [discriminate |]. split; [| reflexivity].
    right. split; [exact Hfiles | discriminate]. }
  destruct (raises env (trace w ++ _) _); simpl.
  { eexists. split; [rewrite <- app_assoc; reflexivity |].
    split.
    { intros job task H. simpl in H. rewrite !elem_of_cons, elem_of_nil in H.
      destruct H as [H | [H | []]]; discriminate H. }
    split; [discriminate |]. split; [| reflexivity].
    right. split; [exact Hfiles | discriminate]. }
  rewrite Hfiles. simpl. rewrite list_lookup_insert_eq by exact Hlen. simpl.
  assert (Hheap : <[input_files := files ++ [confindr_database]]> (heap w) !! input_files
                  = Some (files ++ [confindr_database]))
    by (apply list_lookup_insert_eq, Hlen).
  match goal with
  | |- context [TaskAdd (Some j) ?task] =>
      assert (Hall : forall job task',
                TaskAdd job task'
                  ∈ [CreateContainer (lower env j +:+ "-output");
                     GenerateContainerSas (lower env j +:+ "-output") WRITE 2;
                     TaskAdd (Some j) task] ->
                resource_files task' = files ++ [confindr_database]
                /\ length (resource_files task') = S (length files)
                /\ <[input_files := files ++ [confindr_database]]> (heap w) !! input_files
                   = Some (files ++ [confindr_database]))
  end.
  { intros job task' Hin. rewrite !elem_of_cons, elem_of_nil in Hin.
    destruct Hin as [H | [H | [H | []]]]; try discriminate H.
    injection H as _ ->. simpl. split; [reflexivity |]. split; [| exact Hheap].
    rewrite length_app. simpl. lia. }
  destruct (raises env ((trace w ++ _) ++ _) _); simpl.
  - eexists. split; [rewrite <- !app_assoc; reflexivity |].
    split; [exact Hall |]. split; [discriminate |]. split; [| reflexivity].
    left. exact Hheap.
  - eexists. split; [rewrite <- !app_assoc; reflexivity |].
    split; [exact Hall |]. split; [| split; [| reflexivity]].
    + intros _ _. eexists. simpl. rewrite !elem_of_cons. right. right. left. reflexivity.
    + left. exact Hheap.
Qed.

Example create_task_twice_on_one_list :
  let self := set_storage_account_name "store" (set_job_name "MyJob" AzureBatch_init) in
  let w := {| trace := []; heap := [[]]; dirs := ∅ |} in
  heap (snd ((create_task Sample.env self 0 ;;; create_task Sample.env self 0) w))
  = [[confindr_database; confindr_database]].
Proof. vm_compute. reflexivity. Qed.

Lemma create_task_appends_confindr_witness :
  let self := set_storage_account_name "store" (set_job_name "MyJob" AzureBatch_init) in
  let staged := {| file_path := "x.csv"; blob_source := "https://store.example/x.csv" |} in
  let w := {| trace := []; heap := [[staged]]; dirs := ∅ |} in
  heap (snd (create_task Sample.env self 0 w)) !! 0%nat = Some [staged; confindr_database].
Proof.
  intros self staged w.
  destruct (create_task_appends_confindr Sample.env self 0%nat w [staged] eq_refl)
    as (t & Ht & Htask & Hok & _).
  destruct (Hok tt) as [task Hin]; [vm_compute; reflexivity |].
  apply (Htask _ _ Hin).
Defined.

(** ** Names: claim C5 *)

Lemma omap_every_event (t : list Event) : omap every_event t = t.
Proof. induction t as [| ev t IH]; [reflexivity |]. simpl. f_equal. exact IH. Qed.

Lemma emits_of_obeys {A} (P : Event -> Prop) (m : M A) :
  obeys every_event (only P) m -> emits P m.
Proof.
  intros H. eapply run_spec_weaken; [exact H |].
  intros t r ([y Hy] & _ & _). rewrite omap_every_event in Hy.
  apply Forall_app in Hy as [Ht _]. exact Ht.
Qed.

Section Names.

Variable env : Env.
Variable P : Event -> Prop.

Lemma call_only {A} (ev : Event) (answer : list Event -> A) :
  P ev -> obeys every_event (only P) (call env ev answer).
Proof.
  intros Hev. eapply obeys_weaken; [apply (obeys_call every_event) |].
  intros x ->. repeat constructor. exact Hev.
Qed.

Lemma emit_only (ev : Event) : P ev -> obeys every_event (only P) (emit ev).
Proof.
  intros Hev. eapply obeys_weaken; [apply (obeys_emit every_event) |].
  intros x ->. repeat constructor. exact Hev.
Qed.

Lemma makedirs_only (path : string) :
  P (Makedirs path) -> obeys every_event (only P) (makedirs env path).
Proof.
  intros Hev. eapply obeys_weaken; [apply (obeys_makedirs every_event) |].
  intros x ->. repeat constructor. exact Hev.
Qed.

Lemma bind_only {A B} (m : M A) (f : A -> M B) :
  obeys every_event (only P) m ->
  (forall a, can_return m a -> obeys every_event (only P) (f a)) ->
  obeys every_event (only P) (bind m f).
Proof.
  intros Hm Hf. eapply obeys_weaken; [| apply only_cat].
  apply obeys_bind; [exact Hm | exact Hf | apply inh_only].
Qed.

Lemma silent_only {A} (m : M A) : obeys every_event (one []) m -> obeys every_event (only P) m.
Proof. intros H. eapply obeys_weaken; [exact H | apply only_nil]. Qed.

End Names.

Lemma can_return_ret {A} (x a : A) : can_return (ret x) a -> a = x.
Proof. intros (w & w' & H). inversion H. reflexivity. Qed.

(** Leaves of a chain of binds, under the reading that keeps every event. *)
Ltac only_leaf :=
  first
    [ apply silent_only;
      first [ apply obeys_ret | apply obeys_new_list | apply obeys_list_append
            | apply obeys_list_read | apply obeys_isdir | apply obeys_BlockBlobService ]
    | apply call_only; simpl; auto
    | apply emit_only; simpl; auto
    | apply makedirs_only; simpl; auto ].

Ltac only_chain :=
  repeat first
    [ only_leaf
    | apply bind_only; [ | intros ? ? ]
    | apply obeys_for_each; intros ? ].

Section NamesOfOperations.

Variable env : Env.
Variable self : AzureBatch.
Variable j : string.
Hypothesis Hj : job_name self = Some j.

Lemma upload_names :
  obeys every_event (only (uses_names j (input_container_of env j)))
    (upload_input_to_blob_storage env self).
Proof.
  unfold upload_input_to_blob_storage, _create_resource_file. rewrite Hj. unfold lower_of.
  apply bind_only; [only_leaf | intros resource_files _].
  apply bind_only; [only_leaf | intros made _].
  apply bind_only; [only_leaf | intros a Ha]. apply can_return_ret in Ha. subst a.
  apply bind_only; [only_leaf; reflexivity | intros ? _].
  apply bind_only; [| intros ? _; only_leaf].
  apply obeys_for_each. intros input_request.
  apply bind_only; [| intros ? _].
  - destruct (Nat.eqb _ 1); [| only_leaf].
    apply obeys_for_each. intros file_to_upload.
    only_chain; reflexivity.
  - destruct (Nat.ltb 1 _); [| only_leaf].
    apply obeys_for_each. intros thing. apply obeys_for_each. intros file_to_upload.
    only_chain; try reflexivity.
    destruct (PyStr.is_empty _); only_leaf.
Qed.

Lemma create_task_names input_files :
  obeys every_event (only (uses_names j (output_container_of env j)))
    (create_task env self input_files).
Proof.
  unfold create_task. rewrite Hj. unfold lower_of.
  apply bind_only; [only_leaf | intros made _].
  apply bind_only; [only_leaf | intros a Ha]. apply can_return_ret in Ha. subst a.
  only_chain; reflexivity.
Qed.

Lemma download_container_names container_name output_dir :
  obeys every_event (only (uses_names j container_name))
    (download_container env container_name output_dir).
Proof.
  unfold download_container.
  apply bind_only; [only_leaf; reflexivity | intros generator _].
  apply obeys_for_each. intros blob.
  destruct (PyStr.contains_char "/" (name blob)); [| only_leaf; reflexivity].
  destruct (OsPath.split (name blob)) as [head tail].
  apply bind_only; [only_leaf | intros there _].
  destruct there; only_chain; reflexivity.
Qed.

Lemma download_output_names :
  obeys every_event (only (uses_names j (output_container_of env j)))
    (download_output_files_and_delete_container env self).
Proof.
  unfold download_output_files_and_delete_container. rewrite Hj. unfold lower_of.
  apply bind_only; [only_leaf | intros a Ha]. apply can_return_ret in Ha. subst a.
  apply bind_only; [only_leaf | intros made _].
  apply bind_only; [apply download_container_names | intros ? _].
  only_leaf; reflexivity.
Qed.

Lemma delete_input_container_names :
  obeys every_event (only (uses_names j (input_container_of env j)))
    (delete_input_container env self).
Proof.
  unfold delete_input_container. rewrite Hj. unfold lower_of.
  apply bind_only; [only_leaf | intros a Ha]. apply can_return_ret in Ha. subst a.
  apply bind_only; [only_leaf | intros made _].
  only_leaf; reflexivity.
Qed.

Lemma wait_names fuel container :
  obeys every_event (only (uses_names j container)) (wait_for_tasks_to_complete env fuel self).
Proof.
  unfold wait_for_tasks_to_complete. generalize false.
  induction fuel as [| fuel IH]; intros b; simpl.
  - destruct b; [only_leaf |]. apply silent_only.
    apply obeys_silent; intros; simpl; [reflexivity | discriminate].
  - destruct b; [only_leaf |].
    apply bind_only; [only_leaf; exact Hj | intros ? _].
    apply bind_only; [only_leaf | intros ? _]. apply IH.
Qed.

End NamesOfOperations.

(** *** What an operation does first *)

Lemma bind_Ok {A B} (m : M A) (f : A -> M B) (w : World) (a : A) (w' : World) :
  m w = (Ok a, w') -> bind m f w = f a w'.
Proof. intros H. unfold bind. rewrite H. reflexivity. Qed.

Lemma BlockBlobService_given (self : AzureBatch) (w : World) :
  account_given self = true ->
  BlockBlobService (storage_account_key self) (storage_account_name self) w = (Ok tt, w).
Proof.
  unfold account_given, BlockBlobService.
  destruct (storage_account_name self) as [[| c s] |]; [discriminate | reflexivity | discriminate].
Qed.

Lemma BlockBlobService_refused (self : AzureBatch) (w : World) :
  account_given self = false ->
  BlockBlobService (storage_account_key self) (storage_account_name self) w
  = (Raise ValueError_missing_account, w).
Proof.
  unfold account_given, BlockBlobService.
  destruct (storage_account_name self) as [[| c s] |]; [reflexivity | discriminate | reflexivity].
Qed.

(** A call that is followed by more is the first thing a run does. *)
Lemma call_then {A B} (env : Env) (ev : Event) (answer : list Event -> A)
    (f : A -> M B) (w : World) (h : list Event) :
  trace w = h ->
  (forall a, obeys every_event (only (fun _ => True)) (f a)) ->
  exists t, trace (snd (bind (call env ev answer) f w)) = h ++ ev :: t.
Proof.
  intros <- Hf. unfold bind, call. destruct (raises env (trace w) ev).
  - exists []. reflexivity.
  - destruct (f (answer (trace w)) (record_call w ev)) as [r w'] eqn:Hrun.
    destruct (Hf _ _ _ _ Hrun) as (t & Ht & _). exists t.
    destruct r; simpl; rewrite Ht; simpl; rewrite <- app_assoc; reflexivity.
Qed.

Section FirstCalls.

Variable env : Env.
Variable self : AzureBatch.
Variable j : string.
Hypothesis Hj : job_name self = Some j.
Hypothesis Hacct : account_given self = true.

Lemma upload_creates_input_container w :
  exists t,
    trace (snd (upload_input_to_blob_storage env self w))
    = trace w ++ CreateContainer (lower env j +:+ "-input") :: t.
Proof.
  unfold upload_input_to_blob_storage, _create_resource_file.
  erewrite bind_Ok by reflexivity. cbv beta zeta.
  rewrite (bind_Ok _ _ _ tt _ (BlockBlobService_given self _ Hacct)). cbv beta zeta.
  rewrite Hj. erewrite bind_Ok by reflexivity. cbv beta zeta.
  apply (call_then env (CreateContainer (lower env j +:+ "-input"))); [reflexivity |].
  intros made.
  apply bind_only; [| intros ? _; only_leaf].
  apply obeys_for_each. intros input_request.
  apply bind_only; [| intros ? _].
  - destruct (Nat.eqb _ 1); [| only_leaf].
    apply obeys_for_each. intros file_to_upload.
    only_chain.
  - destruct (Nat.ltb 1 _); [| only_leaf].
    apply obeys_for_each. intros thing. apply obeys_for_each. intros file_to_upload.
    only_chain.
    destruct (PyStr.is_empty _); only_leaf.
Qed.

Lemma create_task_creates_output_container input_files w :
  exists t,
    trace (snd (create_task env self input_files w))
    = trace w ++ CreateContainer (lower env j +:+ "-output") :: t.
Proof.
  unfold create_task.
  rewrite (bind_Ok _ _ _ tt _ (BlockBlobService_given self _ Hacct)). cbv beta zeta.
  rewrite Hj. erewrite bind_Ok by reflexivity. cbv beta zeta.
  apply (call_then env (CreateContainer (lower env j +:+ "-output"))); [reflexivity |].
  intros made.
  only_chain.
Qed.

Lemma download_container_lists container_name output_dir w :
  exists t,
    trace (snd (download_container env container_name output_dir w))
    = trace w ++ ListBlobs container_name :: t.
Proof.
  unfold download_container. apply call_then; [reflexivity |]. intros generator.
  apply obeys_for_each. intros blob.
  destruct (PyStr.contains_char "/" (name blob)); [| only_leaf].
  destruct (OsPath.split (name blob)) as [head tail].
  apply bind_only; [only_leaf | intros there _].
  destruct there; only_chain.
Qed.

Lemma download_output_lists_and_deletes w :
  let run := download_output_files_and_delete_container env self w in
  exists t,
    trace (snd run) = trace w ++ ListBlobs (lower env j +:+ "-output") :: t
    /\ (fst run = Ok tt ->
        exists t', t = t' ++ [DeleteContainer (lower env j +:+ "-output")]).
Proof.
  unfold download_output_files_and_delete_container.
  rewrite Hj. erewrite bind_Ok by reflexivity. cbv beta zeta.
  rewrite (bind_Ok _ _ _ tt _ (BlockBlobService_given self _ Hacct)). cbv beta zeta.
  destruct (download_container_lists (lower env j +:+ "-output") "." w) as [t Ht].
  unfold bind.
  destruct (download_container env (lower env j +:+ "-output") "." w) as [[u | e |] w1];
    simpl in Ht |- *.
  - unfold call_, call. destruct (raises env (trace w1) _); simpl; rewrite Ht.
    + exists (t ++ [DeleteContainer (lower env j +:+ "-output")]).
      split; [rewrite <- app_assoc; reflexivity | discriminate].
    + exists (t ++ [DeleteContainer (lower env j +:+ "-output")]).
      split; [rewrite <- app_assoc; reflexivity |]. intros _. exists t. reflexivity.
  - exists t. split; [exact Ht | discriminate].
  - exists t. split; [exact Ht | discriminate].
Qed.

Lemma delete_input_container_deletes w :
  trace (snd (delete_input_container env self w))
  = trace w ++ [DeleteContainer (lower env j +:+ "-input")].
Proof.
  unfold delete_input_container.
  rewrite Hj. erewrite bind_Ok by reflexivity. cbv beta zeta.
  rewrite (bind_Ok _ _ _ tt _ (BlockBlobService_given self _ Hacct)). cbv beta zeta.
  unfold call_, call. destruct (raises env (trace w) _); reflexivity.
Qed.

End FirstCalls.

(** C5: the names of the remote resources are functions of the job name
    alone, and every operation uses them: the pool and the job are named
    by the job name itself, the input container by the lower-cased job
    name followed by [-input], the output container by the lower-cased
    job name followed by [-output].  No operation names another pool,
    job or container in any run; and each names its own: the pool and
    job operations in their one call, staging by creating the input
    container first, task creation by creating the output container
    first, the download by listing the output container first and
    deleting it last, and the last step by deleting the input container
    (the four that work on storage: when the storage client can be made). *)
Theorem resource_names_derive_from_job_name env self j :
  job_name self = Some j ->
  let input_container := lower env j +:+ "-input" in
  let output_container := lower env j +:+ "-output" in
  (emits (uses_names j input_container) (upload_input_to_blob_storage env self)
   /\ emits (uses_names j input_container) (delete_input_container env self)
   /\ (forall input_files,
         emits (uses_names j output_container) (create_task env self input_files))
   /\ emits (uses_names j output_container)
        (download_output_files_and_delete_container env self)
   /\ (forall fuel, emits (uses_names j input_container)
                      (wait_for_tasks_to_complete env fuel self)))
  /\ ((forall w,
         trace (snd (create_pool env self w))
         = trace w ++ [PoolAdd {| pool_id := Some j;
                                  image_reference := {| publisher := "Canonical";
                                                        offer := "UbuntuServer";
                                                        sku := "16.04-LTS";
                                                        version := "latest" |};
                                  node_agent_sku_id := "batch.node.ubuntu 16.04";
                                  pool_vm_size := vm_size self;
                                  target_dedicated_nodes := 1;
                                  target_low_priority_nodes := 0 |}])
      /\ (forall w,
            trace (snd (create_job env self w))
            = trace w ++ [JobAdd {| job_id := Some j; job_pool_id := Some j |}])
      /\ (forall w, trace (snd (delete_job env self w)) = trace w ++ [JobDelete (Some j)])
      /\ (forall w, trace (snd (delete_pool env self w)) = trace w ++ [PoolDelete (Some j)]))
  /\ (account_given self = true ->
      (forall w,
         exists t,
           trace (snd (upload_input_to_blob_storage env self w))
           = trace w ++ CreateContainer input_container :: t)
      /\ (forall input_files w,
            exists t,
              trace (snd (create_task env self input_files w))
              = trace w ++ CreateContainer output_container :: t)
      /\ (forall w,
            let run := download_output_files_and_delete_container env self w in
            exists t,
              trace (snd run) = trace w ++ ListBlobs output_container :: t
              /\ (fst run = Ok tt -> exists t', t = t' ++ [DeleteContainer output_container]))
      /\ (forall w,
            trace (snd (delete_input_container env self w))
            = trace w ++ [DeleteContainer input_container])).
Proof.
  intros Hj input_container output_container.
  split; [| split].
  - split; [apply emits_of_obeys, upload_names, Hj |].
    split; [apply emits_of_obeys, delete_input_container_names, Hj |].
    split; [intros input_files; apply emits_of_obeys, create_task_names, Hj |].
    split; [apply emits_of_obeys, download_output_names, Hj |].
    intros fuel; apply emits_of_obeys, wait_names, Hj.
  - unfold create_pool, create_job, delete_job, delete_pool, call_, call.
    rewrite Hj.
    repeat split; intros w; simpl;
      match goal with |- context [raises env ?h ?ev] => destruct (raises env h ev) end;
      reflexivity.
  - intros Hacct.
    split; [intros w; apply upload_creates_input_container; assumption |].
    split; [intros input_files w; apply create_task_creates_output_container; assumption |].
    split; [intros w; apply download_output_lists_and_deletes; assumption |].
    intros w; apply delete_input_container_deletes; assumption.
Qed.

(** The sample object: job [MyJob] on the storage account [store]. *)
Lemma resource_names_derive_from_job_name_witness :
  let self := set_storage_account_name "store" (set_job_name "MyJob" AzureBatch_init) in
  (exists t,
     trace (snd (upload_input_to_blob_storage Sample.env self Sample.world))
     = CreateContainer "myjob-input" :: t)
  /\ (exists t,
        trace (snd (download_output_files_and_delete_container Sample.env self Sample.world))
        = ListBlobs "myjob-output" :: t
        /\ exists t', t = t' ++ [DeleteContainer "myjob-output"]).
Proof.
  intros self.
  destruct (resource_names_derive_from_job_name Sample.env self "MyJob" eq_refl)
    as (_ & _ & Hnamed).
  destruct (Hnamed eq_refl) as (Hup & _ & Hdown & _).
  split; [exact (Hup Sample.world) |].
  destruct (Hdown Sample.world) as (t & Ht & Hlast).
  exists t. split; [exact Ht |]. apply Hlast. vm_compute. reflexivity.
Defined.

(** ** The pool: claim C7 *)

(** C7 holds for the size and the node counts and fails for the image:
    [create_pool] asks for one pool with one dedicated node and no
    low-priority node, of the size of the object (by default
    [Standard_D16s_v3]), but always with the same Ubuntu image, whatever
    [vm_image] is. *)
Theorem create_pool_ignores_vm_image env self w :
  exists pool,
    trace (snd (create_pool env self w)) = trace w ++ [PoolAdd pool]
    /\ target_dedicated_nodes pool = 1%Z
    /\ target_low_priority_nodes pool = 0%Z
    /\ pool_vm_size pool = vm_size self
    /\ vm_size AzureBatch_init = "Standard_D16s_v3"
    /\ image_reference pool
       = {| publisher := "Canonical"; offer := "UbuntuServer";
            sku := "16.04-LTS"; version := "latest" |}
    /\ (forall image, create_pool env (set_vm_image image self) w = create_pool env self w).
Proof.
  eexists. split.
  - unfold create_pool, call_, call.
    destruct (raises env (trace w) _); reflexivity.
  - repeat split.
Qed.

Example sample_pool_image :
  omap (fun ev => match ev with PoolAdd pool => Some (image_reference pool) | _ => None end)
    (trace (snd (main Sample.env 3 Sample.args Sample.world)))
  = [{| publisher := "Canonical"; offer := "UbuntuServer";
        sku := "16.04-LTS"; version := "latest" |}]
  /\ (exists azurebatch,
        parse_configuration "job.cfg" Sample.config_lines = inr azurebatch
        /\ vm_image azurebatch = Some "my-image").
Proof. split; [vm_compute; reflexivity |]. eexists. split; vm_compute; reflexivity. Qed.

(** ** The download: claim C8 *)

(** C8 fails for blobs at the top of the container: with the local
    directory [out], the blob [a.txt] is written to [a.txt] in the
    working directory, not to [out/a.txt]; the blob [sub/b.txt] does go
    to [out/sub/b.txt], after [out/sub] is made. *)
Theorem download_writes_top_level_blob_outside_output_dir :
  download_container Sample.env "myjob-output" "out" Sample.world
  = (Ok tt,
     {| trace := [ListBlobs "myjob-output";
                  GetBlobToPath "myjob-output" "a.txt" "a.txt";
                  Makedirs "out/sub";
                  GetBlobToPath "myjob-output" "sub/b.txt" "out/sub/b.txt"];
        heap := [];
        dirs := {[ ["out"]; ["out"; "sub"] ]} |}).
Proof. vm_compute. reflexivity. Qed.

(** The same for any local directory and any blob without a slash. *)
Lemma download_top_level_blob env container_name output_dir blob_name w :
  PyStr.contains_char "/" blob_name = false ->
  raises env (trace w) (ListBlobs container_name) = false ->
  blobs_listed env (trace w) container_name = [ {| name := blob_name |} ] ->
  trace (snd (download_container env container_name output_dir w))
  = trace w ++ [ListBlobs container_name; GetBlobToPath container_name blob_name blob_name].
Proof.
  intros Hslash Hlist Hblobs.
  unfold download_container, call_, call. unfold bind at 1.
  rewrite Hlist, Hblobs. cbn [for_each name]. rewrite Hslash.
  unfold bind, ret. cbn [trace record_call].
  destruct (raises env (trace w ++ _) _); simpl; rewrite <- app_assoc; reflexivity.
Qed.

(** A directory that is there already is not made again, and the
    download goes on. *)
Example download_into_existing_directory :
  let w := {| trace := []; heap := []; dirs := {[ ["out"]; ["out"; "sub"] ]} |} in
  fst (download_container Sample.env "myjob-output" "out" w) = Ok tt
  /\ trace (snd (download_container Sample.env "myjob-output" "out" w))
     = [ListBlobs "myjob-output";
        GetBlobToPath "myjob-output" "a.txt" "a.txt";
        GetBlobToPath "myjob-output" "sub/b.txt" "out/sub/b.txt"].
Proof. split; vm_compute; reflexivity. Qed.

(** ** The string and path primitives on examples *)

Example split_assign_ex :
  PyStr.split ":=" "JOB_NAME:=a:=b" = ["JOB_NAME"; "a"; "b"].
Proof. reflexivity. Qed.

Example split_blank_ex :
  PyStr.split ":=" (PyStr.rstrip Sample.newline) = [EmptyString].
Proof. reflexivity. Qed.

Example split_ws_ex :
  PyStr.split_ws "  data/*.txt   remote/in " = ["data/*.txt"; "remote/in"].
Proof. reflexivity. Qed.

Example os_split_ex :
  OsPath.split "sub/b.txt" = ("sub", "b.txt")
  /\ OsPath.split "a.txt" = (EmptyString, "a.txt")
  /\ OsPath.split "/x" = ("/", "x")
  /\ OsPath.split "a//b/c" = ("a//b", "c").
Proof. repeat split. Qed.

Example os_join_ex :
  OsPath.join "." ["sub"; "b.txt"] = "./sub/b.txt"
  /\ OsPath.join "out/" ["/abs"; "x"] = "/abs/x".
Proof. split; reflexivity. Qed.

Example components_ex :
  OsPath.components "./a//b/" = ["a"; "b"]
  /\ OsPath.components "/a/b" = ["/"; "a"; "b"].
Proof. split; reflexivity. Qed.

Example lower_ex : lower Sample.env "MyJob-7" = "myjob-7".
Proof. reflexivity. Qed.

Example missing_attributes_ex :
  missing_attributes AzureBatch_init
  = ["BATCH_ACCOUNT_NAME"; "BATCH_ACCOUNT_KEY"; "BATCH_ACCOUNT_URL";
     "STORAGE_ACCOUNT_NAME"; "STORAGE_ACCOUNT_KEY"; "JOB_NAME"; "COMMAND";
     "VM_IMAGE"; "INPUT"; "OUTPUT"].
Proof. reflexivity. Qed.

(** ** More on the configuration file *)

(** One line of the file, attribute by attribute. *)
Lemma set_option_spec (option parameter : string) (a : AzureBatch) (u : list string) :
  set_option option parameter (a, u) =
  ({| batch_account_name :=
        if String.eqb option "BATCH_ACCOUNT_NAME" then Some parameter else batch_account_name a;
      batch_account_key :=
        if String.eqb option "BATCH_ACCOUNT_KEY" then Some parameter else batch_account_key a;
      batch_account_url :=
        if String.eqb option "BATCH_ACCOUNT_URL" then Some parameter else batch_account_url a;
      storage_account_name :=
        if String.eqb option "STORAGE_ACCOUNT_NAME" then Some parameter
        else storage_account_name a;
      storage_account_key :=
        if String.eqb option "STORAGE_ACCOUNT_KEY" then Some parameter
        else storage_account_key a;
      job_name := if String.eqb option "JOB_NAME" then Some parameter else job_name a;
      command := if String.eqb option "COMMAND" then Some parameter else command a;
      vm_image := if String.eqb option "VM_IMAGE" then Some parameter else vm_image a;
      vm_size := if String.eqb option "VM_SIZE" then parameter else vm_size a;
      input := if String.eqb option "INPUT" then input a ++ [parameter] else input a;
      output := if String.eqb option "OUTPUT" then output a ++ [parameter] else output a |},
   if recognized option then u else u ++ [option]).
Proof.
  unfold set_option, recognized, recognized_options.
  repeat match goal with
         | |- context [String.eqb option ?key] =>
             destruct (String.eqb_spec option key) as [-> | ?]; [destruct a; reflexivity |]
         end.
  cbn [existsb].
  repeat match goal with
         | H : option <> _ |- _ => apply String.eqb_neq in H; rewrite H; clear H
         end.
  destruct a; reflexivity.
Qed.

(** The loop over the lines is a fold: what a file does is what its
    beginning does, followed by what the rest does. *)
Lemma parse_lines_app (lines1 lines2 : list string) (st : AzureBatch * list string) :
  parse_lines (lines1 ++ lines2) st =
  match parse_lines lines1 st with
  | inl e => inl e
  | inr st' => parse_lines lines2 st'
  end.
Proof.
  revert st. induction lines1 as [| line lines1 IH]; intros st; [reflexivity |].
  simpl. destruct (_ !! 0%nat); [| reflexivity]. destruct (_ !! 1%nat); [| reflexivity].
  apply IH.
Qed.

Lemma values_of_cons (key line : string) (lines : list string) :
  values_of key (line :: lines) =
  match option_of line, parameter_of line with
  | Some option, Some parameter =>
      if String.eqb option key then parameter :: values_of key lines else values_of key lines
  | _, _ => values_of key lines
  end.
Proof.
  unfold values_of. simpl.
  destruct (option_of line) as [option |]; [| reflexivity].
  destruct (String.eqb option key); destruct (parameter_of line); reflexivity.
Qed.

Lemma last_or_cons (old : option string) (v : string) (values : list string) :
  last_or old (v :: values) = last_or (Some v) values.
Proof.
  unfold last_or. destruct values as [| v' values]; [reflexivity |].
  change (last (v :: v' :: values)) with (last (v' :: values)).
  destruct (last (v' :: values)) eqn:Hl; [reflexivity |].
  apply last_None in Hl. discriminate Hl.
Qed.

(** What the loop leaves in each attribute, from the lines it has read. *)
Lemma parse_lines_result (lines : list string) (a a' : AzureBatch) (u u' : list string) :
  parse_lines lines (a, u) = inr (a', u') ->
  batch_account_name a' = last_or (batch_account_name a) (values_of "BATCH_ACCOUNT_NAME" lines)
  /\ batch_account_key a' = last_or (batch_account_key a) (values_of "BATCH_ACCOUNT_KEY" lines)
  /\ batch_account_url a' = last_or (batch_account_url a) (values_of "BATCH_ACCOUNT_URL" lines)
  /\ storage_account_name a'
     = last_or (storage_account_name a) (values_of "STORAGE_ACCOUNT_NAME" lines)
  /\ storage_account_key a'
     = last_or (storage_account_key a) (values_of "STORAGE_ACCOUNT_KEY" lines)
  /\ job_name a' = last_or (job_name a) (values_of "JOB_NAME" lines)
  /\ command a' = last_or (command a) (values_of "COMMAND" lines)
  /\ vm_image a' = last_or (vm_image a) (values_of "VM_IMAGE" lines)
  /\ Some (vm_size a') = last_or (Some (vm_size a)) (values_of "VM_SIZE" lines)
  /\ input a' = input a ++ values_of "INPUT" lines
  /\ output a' = output a ++ values_of "OUTPUT" lines
  /\ u' = u ++ List.filter (fun option => negb (recognized option)) (options_of lines).
Proof.
  revert a u. induction lines as [| line lines IH]; intros a u H.
  - simpl in H. injection H as <- <-. unfold last_or. simpl.
    rewrite !app_nil_r. repeat split.
  - cbn [parse_lines] in H. unfold options_of. cbn [omap list_omap].
    fold (option_of line) in H |- *. fold (parameter_of line) in H.
    rewrite !(values_of_cons _ line).
    destruct (option_of line) as [option |]; [| discriminate H].
    destruct (parameter_of line) as [parameter |]; [| discriminate H].
    rewrite set_option_spec in H. apply IH in H. cbn [batch_account_name batch_account_key
      batch_account_url storage_account_name storage_account_key job_name command vm_image
      vm_size input output] in H.
    fold (options_of lines). cbn [List.filter].
    destruct H as (H1 & H2 & H3 & H4 & H5 & H6 & H7 & H8 & H9 & H10 & H11 & H12).
    rewrite H1, H2, H3, H4, H5, H6, H7, H8, H9, H10, H11, H12.
    repeat split;
      try (match goal with
           | |- context [String.eqb option ?key] => destruct (String.eqb option key)
           end;
           rewrite ?last_or_cons, <- ?app_assoc; reflexivity).
    destruct (recognized option); simpl; rewrite <- ?app_assoc; reflexivity.
Qed.

Lemma last_or_None (values : list string) : last_or None values = last values.
Proof. unfold last_or. destruct (last values); reflexivity. Qed.

Lemma last_nil_iff (values : list string) : last values = None <-> values = [].
Proof. apply last_None. Qed.

(** X1: the object a configuration file gives, attribute by attribute: a
    scalar option has the parameter of its last line (or stays unset, or
    at its default for [VM_SIZE]), [INPUT] and [OUTPUT] collect the
    parameters of all their lines in file order. *)
Theorem parse_configuration_result config_file config_options azurebatch :
  parse_configuration config_file config_options = inr azurebatch ->
  batch_account_name azurebatch = last (values_of "BATCH_ACCOUNT_NAME" config_options)
  /\ batch_account_key azurebatch = last (values_of "BATCH_ACCOUNT_KEY" config_options)
  /\ batch_account_url azurebatch = last (values_of "BATCH_ACCOUNT_URL" config_options)
  /\ storage_account_name azurebatch = last (values_of "STORAGE_ACCOUNT_NAME" config_options)
  /\ storage_account_key azurebatch = last (values_of "STORAGE_ACCOUNT_KEY" config_options)
  /\ job_name azurebatch = last (values_of "JOB_NAME" config_options)
  /\ command azurebatch = last (values_of "COMMAND" config_options)
  /\ vm_image azurebatch = last (values_of "VM_IMAGE" config_options)
  /\ vm_size azurebatch
     = default "Standard_D16s_v3" (last (values_of "VM_SIZE" config_options))
  /\ input azurebatch = values_of "INPUT" config_options
  /\ output azurebatch = values_of "OUTPUT" config_options.
Proof.
  unfold parse_configuration. intros H.
  destruct (parse_lines config_options (AzureBatch_init, [])) as [e | [a u]] eqn:Hp;
    [discriminate H |].
  destruct (Nat.ltb 0 (length u)); [discriminate H |]. injection H as ->.
  apply parse_lines_result in Hp.
  destruct Hp as (H1 & H2 & H3 & H4 & H5 & H6 & H7 & H8 & H9 & H10 & H11 & _).
  rewrite last_or_None in H1, H2, H3, H4, H5, H6, H7, H8.
  repeat split; try assumption.
  unfold last_or in H9. simpl in H9.
  destruct (last (values_of "VM_SIZE" config_options)); injection H9 as ->; reflexivity.
Qed.

Lemma parse_configuration_result_witness :
  last (values_of "JOB_NAME" ["INPUT:=a"; "JOB_NAME:=first"; "INPUT:=b c"; "JOB_NAME:=second"])
  = Some "second"
  /\ values_of "INPUT" ["INPUT:=a"; "JOB_NAME:=first"; "INPUT:=b c"; "JOB_NAME:=second"]
     = ["a"; "b c"].
Proof.
  pose (lines := ["INPUT:=a"; "JOB_NAME:=first"; "INPUT:=b c"; "JOB_NAME:=second"]).
  pose (a := append_input "b c" (append_input "a" (set_job_name "second" AzureBatch_init))).
  destruct (parse_configuration_result "job.cfg" lines a)
    as (_ & _ & _ & _ & _ & Hj & _ & _ & _ & Hi & _).
  - vm_compute. reflexivity.
  - split; [exact (eq_sym Hj) | exact (eq_sym Hi)].
Defined.

(** X2: the options a file gives that the parser does not know are all
    reported, in file order, and only files in which every line has the
    separator get that far. *)
Theorem unrecognized_options_all_reported config_file config_options
    (reported_file : string) (options : list string) :
  parse_configuration config_file config_options
    = inl (AttributeError_unrecognized reported_file options)
  <-> ((forall line, line ∈ config_options -> has_separator line = true)
       /\ reported_file = config_file
       /\ options = List.filter (fun option => negb (recognized option))
                      (options_of config_options)
       /\ options <> []).
Proof.
  unfold parse_configuration.
  destruct (parse_lines config_options (AzureBatch_init, [])) as [e | [a u]] eqn:Hp.
  - pose proof (parse_lines_error _ _ _ Hp) as ->. split; [discriminate |].
    intros (Hall & _). exfalso.
    assert (Hex : exists e, parse_lines config_options (AzureBatch_init, []) = inl e) by eauto.
    apply parse_lines_IndexError in Hex as (line & Hin & Hl).
    rewrite (Hall line Hin) in Hl. discriminate Hl.
  - assert (Hall : forall line, line ∈ config_options -> has_separator line = true).
    { intros line Hin. destruct (has_separator line) eqn:Hl; [reflexivity |].
      assert (Hex : exists e, parse_lines config_options (AzureBatch_init, []) = inl e).
      { apply parse_lines_IndexError. eauto. }
      destruct Hex as [e He]. rewrite He in Hp. discriminate Hp. }
    apply parse_lines_result in Hp.
    destruct Hp as (_ & _ & _ & _ & _ & _ & _ & _ & _ & _ & _ & Hu). simpl in Hu. subst u.
    destruct (List.filter _ (options_of config_options)) as [| o os] eqn:Hf; simpl.
    + split; [discriminate |]. intros (_ & _ & -> & Hne). contradiction.
    + split.
      * intros H. injection H as <- <-. repeat split; [exact Hall | discriminate].
      * intros (_ & -> & -> & _). reflexivity.
Qed.

Lemma unrecognized_options_all_reported_witness :
  parse_configuration "job.cfg" ["COLOUR:=red"; "JOB_NAME:=j"; "SIZE:=big"]
  = inl (AttributeError_unrecognized "job.cfg" ["COLOUR"; "SIZE"]).
Proof.
  apply (unrecognized_options_all_reported "job.cfg"
           ["COLOUR:=red"; "JOB_NAME:=j"; "SIZE:=big"] "job.cfg" ["COLOUR"; "SIZE"]).
  split; [| split; [reflexivity | split; [reflexivity | discriminate]]].
  intros line Hin. rewrite !elem_of_cons, elem_of_nil in Hin.
  destruct Hin as [-> | [-> | [-> | []]]]; reflexivity.
Defined.

(** ** The completeness check *)

Lemma missing_fold (attrs : list (string * PyVal)) (missing : list string) :
  fold_left
    (fun missing (attr : string * PyVal) =>
       match snd attr with
       | VNone => missing ++ [PyStr.upper (fst attr)]
       | VList l => if Nat.eqb (length l) 0 then missing ++ [PyStr.upper (fst attr)] else missing
       | VStr _ => missing
       end)
    attrs missing
  = missing ++ map (fun attr => PyStr.upper (fst attr))
                   (List.filter (fun attr => unset (snd attr)) attrs).
Proof.
  revert missing. induction attrs as [| [attr v] attrs IH]; intros missing.
  - simpl. rewrite app_nil_r. reflexivity.
  - cbn [fold_left List.filter]. rewrite IH.
    destruct v as [| s | l]; cbn [snd fst unset]; [| reflexivity |].
    + cbn [map fst]. rewrite <- app_assoc. reflexivity.
    + destruct (Nat.eqb (length l) 0); [| reflexivity].
      cbn [map fst]. rewrite <- app_assoc. reflexivity.
Qed.

(** The reported names are those of the unset attributes, in the order of
    the attributes. *)
Lemma missing_attributes_filter (a : AzureBatch) :
  missing_attributes a
  = map (fun attr => PyStr.upper (fst attr)) (List.filter (fun attr => unset (snd attr)) (vars a)).
Proof. unfold missing_attributes. apply missing_fold. Qed.

Lemma unset_of_option (x : option string) : unset (of_option x) = false <-> is_Some x.
Proof.
  destruct x; simpl; split; try discriminate; eauto.
  intros [s H]. discriminate H.
Qed.

Lemma filter_nil_iff {A} (f : A -> bool) (l : list A) :
  List.filter f l = [] <-> Forall (fun x => f x = false) l.
Proof.
  induction l as [| x l IH]; simpl.
  - split; [constructor | reflexivity].
  - rewrite Forall_cons. destruct (f x); [| rewrite IH; tauto].
    split; [discriminate | intros [H _]; discriminate H].
Qed.

Lemma nothing_missing (a : AzureBatch) :
  missing_attributes a = [] <->
  is_Some (batch_account_name a) /\ is_Some (batch_account_key a)
  /\ is_Some (batch_account_url a) /\ is_Some (storage_account_name a)
  /\ is_Some (storage_account_key a) /\ is_Some (job_name a)
  /\ is_Some (command a) /\ is_Some (vm_image a)
  /\ input a <> [] /\ output a <> [].
Proof.
  rewrite missing_attributes_filter.
  assert (Hmap : forall l : list (string * PyVal),
            map (fun attr => PyStr.upper (fst attr)) l = [] <-> l = []).
  { intros [| x l]; simpl; split; try discriminate; reflexivity. }
  rewrite Hmap, filter_nil_iff. unfold vars.
  rewrite !Forall_cons, Forall_nil. cbn [snd].
  rewrite !unset_of_option.
  assert (Hlist : forall l : list string, unset (VList l) = false <-> l <> []).
  { intros [| x l]; simpl; split; try discriminate; congruence. }
  rewrite !Hlist. cbn [unset]. tauto.
Qed.

(** X3: the completeness check passes exactly when the eight scalar
    attributes are set and both lists are non-empty; otherwise it raises
    one error that names every unset attribute, not just the first, and
    in both cases it touches nothing. *)
Theorem check_reports_every_unset_attribute (a : AzureBatch) (w : World) :
  (fst (check_no_attributes_none a w) = Ok tt <->
   is_Some (batch_account_name a) /\ is_Some (batch_account_key a)
   /\ is_Some (batch_account_url a) /\ is_Some (storage_account_name a)
   /\ is_Some (storage_account_key a) /\ is_Some (job_name a)
   /\ is_Some (command a) /\ is_Some (vm_image a)
   /\ input a <> [] /\ output a <> [])
  /\ (forall attr v,
        In (attr, v) (vars a) -> unset v = true ->
        exists missing,
          fst (check_no_attributes_none a w) = Raise (AttributeError_missing missing)
          /\ In (PyStr.upper attr) missing)
  /\ snd (check_no_attributes_none a w) = w.
Proof.
  unfold check_no_attributes_none.
  split; [| split].
  - rewrite <- nothing_missing.
    destruct (missing_attributes a) as [| m ms]; simpl; split; try discriminate; reflexivity.
  - intros attr v Hin Hunset.
    assert (Hm : In (PyStr.upper attr) (missing_attributes a)).
    { rewrite missing_attributes_filter.
      apply (in_map (fun attr => PyStr.upper (fst attr)) _ (attr, v)).
      apply filter_In. split; [exact Hin | exact Hunset]. }
    destruct (missing_attributes a) as [| m ms]; [destruct Hm |].
    simpl. eexists. split; [reflexivity | exact Hm].
  - destruct (Nat.ltb 0 (length (missing_attributes a))); reflexivity.
Qed.

Lemma check_reports_every_unset_attribute_witness :
  exists missing,
    fst (check_no_attributes_none (set_job_name "j" AzureBatch_init) Sample.world)
    = Raise (AttributeError_missing missing)
    /\ In "OUTPUT" missing.
Proof.
  destruct (check_reports_every_unset_attribute (set_job_name "j" AzureBatch_init) Sample.world)
    as (_ & Hmiss & _).
  apply (Hmiss "output" (VList [])).
  - vm_compute. do 10 right. left. reflexivity.
  - reflexivity.
Defined.

Lemma last_is_Some (values : list string) : is_Some (last values) <-> values <> [].
Proof.
  rewrite <- last_nil_iff. destruct (last values); split; try congruence; eauto.
  intros [x Hx]. discriminate Hx.
Qed.

(** X4: a file that parses passes the completeness check exactly when it
    gives each of the ten required options at least once: only the
    presence of the options counts, not their values. *)
Theorem validation_passes_iff_required_options_given
    config_file config_options azurebatch (w : World) :
  parse_configuration config_file config_options = inr azurebatch ->
  (fst (check_no_attributes_none azurebatch w) = Ok tt <->
   Forall (fun key => values_of key config_options <> []) required_options).
Proof.
  intros Hp. apply parse_configuration_result in Hp.
  destruct Hp as (H1 & H2 & H3 & H4 & H5 & H6 & H7 & H8 & _ & H10 & H11).
  destruct (check_reports_every_unset_attribute azurebatch w) as (-> & _).
  rewrite H1, H2, H3, H4, H5, H6, H7, H8, H10, H11, !last_is_Some.
  unfold required_options. rewrite !Forall_cons, Forall_nil. tauto.
Qed.

Lemma validation_passes_iff_required_options_given_witness :
  exists azurebatch,
    parse_configuration "job.cfg" Sample.config_lines = inr azurebatch
    /\ fst (check_no_attributes_none azurebatch Sample.world) = Ok tt.
Proof.
  destruct (parse_configuration "job.cfg" Sample.config_lines) as [e | a] eqn:Hp;
    [vm_compute in Hp; discriminate Hp |].
  exists a. split; [reflexivity |].
  apply (validation_passes_iff_required_options_given "job.cfg" Sample.config_lines a);
    [exact Hp |].
  unfold required_options. repeat constructor; vm_compute; discriminate.
Defined.

(** ** The other outcomes of the completion poller *)

Section PollerOutcomes.

Variable env : Env.

Lemma wait_loop_out_of_fuel fuel self w w' :
  wait_loop env fuel self false w = (OutOfFuel, w') <->
  (forall k, k < fuel ->
     listing_fails env (trace w) (job_name self) k = false
     /\ all_completed (listing env (trace w) (job_name self) k) = false)
  /\ w' = after_rounds w (job_name self) fuel.
Proof.
  revert w w'. induction fuel as [| fuel IH]; intros w w'.
  - simpl. unfold out_of_fuel. rewrite after_rounds_0. split.
    + intros H. injection H as <-. split; [intros k Hk; lia | reflexivity].
    + intros [_ ->]. reflexivity.
  - cbn [wait_loop]. unfold bind, call, emit.
    assert (H0 : trace w ++ poll_rounds (job_name self) 0 = trace w) by apply app_nil_r.
    destruct (raises env (trace w) (TaskList (job_name self))) eqn:Hr.
    + split; [discriminate |]. intros [Hall _].
      destruct (Hall 0%nat ltac:(lia)) as [Hf _].
      unfold listing_fails in Hf. rewrite H0 in Hf. congruence.
    + destruct (all_completed (tasks_listed env (trace w) (job_name self))) eqn:Hc.
      * rewrite wait_loop_done. split; [discriminate |]. intros [Hall _].
        destruct (Hall 0%nat ltac:(lia)) as [_ Ha].
        unfold listing in Ha. rewrite H0 in Ha. congruence.
      * rewrite IH. simpl trace. unfold listing, listing_fails.
        rewrite (after_rounds_S w). split.
        -- intros [Hall ->]. split; [| reflexivity].
           intros [| k] Hk; [rewrite H0; auto |].
           rewrite <- rounds_shift. apply Hall. lia.
        -- intros [Hall ->]. split; [| reflexivity].
           intros k Hk. rewrite rounds_shift. apply Hall. lia.
Qed.

Lemma wait_loop_raises fuel self w e w' :
  wait_loop env fuel self false w = (Raise e, w') <->
  exists n,
    n < fuel
    /\ (forall k, k < n ->
          listing_fails env (trace w) (job_name self) k = false
          /\ all_completed (listing env (trace w) (job_name self) k) = false)
    /\ listing_fails env (trace w) (job_name self) n = true
    /\ e = CallFailed (TaskList (job_name self))
    /\ w' = record_call (after_rounds w (job_name self) n) (TaskList (job_name self)).
Proof.
  revert w w'. induction fuel as [| fuel IH]; intros w w'.
  - simpl. unfold out_of_fuel. split; [discriminate |]. intros (n & Hn & _). lia.
  - cbn [wait_loop]. unfold bind, call, emit.
    assert (H0 : trace w ++ poll_rounds (job_name self) 0 = trace w) by apply app_nil_r.
    destruct (raises env (trace w) (TaskList (job_name self))) eqn:Hr.
    + split.
      * intros H. injection H as <- <-. exists 0%nat.
        unfold listing_fails. rewrite H0, after_rounds_0.
        repeat split; try lia; auto.
      * intros (n & _ & Hbefore & _ & -> & ->). destruct n as [| n].
        -- rewrite after_rounds_0. reflexivity.
        -- destruct (Hbefore 0%nat ltac:(lia)) as [Hf _].
           unfold listing_fails in Hf. rewrite H0 in Hf. congruence.
    + destruct (all_completed (tasks_listed env (trace w) (job_name self))) eqn:Hc.
      * rewrite wait_loop_done. split; [discriminate |].
        intros (n & _ & Hbefore & Hf & _). destruct n as [| n].
        -- unfold listing_fails in Hf. rewrite H0 in Hf. congruence.
        -- destruct (Hbefore 0%nat ltac:(lia)) as [_ Ha].
           unfold listing in Ha. rewrite H0 in Ha. congruence.
      * rewrite IH. simpl trace. unfold listing, listing_fails. split.
        -- intros (n & Hn & Hbefore & Hf & -> & ->). exists (S n).
           rewrite (after_rounds_S w), <- rounds_shift. repeat split; try lia; auto.
           ++ destruct k as [| k]; [rewrite H0; exact Hr |].
              rewrite <- rounds_shift. apply Hbefore. lia.
           ++ destruct k as [| k]; [rewrite H0; exact Hc |].
              rewrite <- rounds_shift. apply Hbefore. lia.
        -- intros (n & Hn & Hbefore & Hf & -> & ->). destruct n as [| n].
           ++ rewrite H0 in Hf. congruence.
           ++ exists n. rewrite (after_rounds_S w), rounds_shift.
              repeat split; try lia; auto; rewrite rounds_shift; apply Hbefore; lia.
Qed.

End PollerOutcomes.

(** X5: the poller has no timeout: while no listing fails and every
    listing shows a task that is not completed, it keeps polling, so that
    whatever number of rounds it is given, it has used them all and has
    neither returned nor raised. *)
Theorem poller_has_no_timeout env self w :
  (forall k, listing_fails env (trace w) (job_name self) k = false) ->
  (forall k, ~ all_terminal (listing env (trace w) (job_name self) k)) ->
  forall fuel,
    wait_for_tasks_to_complete env fuel self w
    = (OutOfFuel, after_rounds w (job_name self) fuel).
Proof.
  intros Hf Hrun fuel. unfold wait_for_tasks_to_complete.
  apply wait_loop_out_of_fuel. split; [| reflexivity].
  intros k _. split; [apply Hf |].
  destruct (all_completed (listing env (trace w) (job_name self) k)) eqn:Hc; [| reflexivity].
  exfalso. apply (Hrun k), all_completed_spec, Hc.
Qed.

(** X6: a listing that raises ends the poller with that error, at once
    and without the sleep of that round: the poller raises exactly when a
    listing fails before any round has shown all tasks completed. *)
Theorem poller_raises_when_listing_fails env fuel self w e w' :
  wait_for_tasks_to_complete env fuel self w = (Raise e, w') <->
  exists n,
    n < fuel
    /\ (forall k, k < n ->
          listing_fails env (trace w) (job_name self) k = false
          /\ ~ all_terminal (listing env (trace w) (job_name self) k))
    /\ listing_fails env (trace w) (job_name self) n = true
    /\ e = CallFailed (TaskList (job_name self))
    /\ trace w' = trace w ++ poll_rounds (job_name self) n ++ [TaskList (job_name self)]
    /\ heap w' = heap w /\ dirs w' = dirs w.
Proof.
  unfold wait_for_tasks_to_complete. rewrite wait_loop_raises. split.
  - intros (n & Hn & Hbefore & Hfail & -> & ->). exists n.
    split; [exact Hn |]. split.
    + intros k Hk. destruct (Hbefore k Hk) as [Hf Hc]. split; [exact Hf |].
      intros Ht. apply all_completed_spec in Ht. congruence.
    + repeat split; auto. simpl. rewrite <- app_assoc. reflexivity.
  - intros (n & Hn & Hbefore & Hfail & -> & Ht & Hh & Hd). exists n.
    split; [exact Hn |]. split.
    + intros k Hk. destruct (Hbefore k Hk) as [Hf Hc]. split; [exact Hf |].
      destruct (all_completed (listing env (trace w) (job_name self) k)) eqn:Ha; [| reflexivity].
      exfalso. apply Hc, all_completed_spec, Ha.
    + repeat split; auto. destruct w'. simpl in *. subst.
      unfold record_call, after_rounds. simpl. rewrite <- app_assoc. reflexivity.
Qed.

Lemma poller_has_no_timeout_witness :
  wait_for_tasks_to_complete Trouble.env_never_completes 4
    (set_job_name "MyJob" AzureBatch_init) Sample.world
  = (OutOfFuel, after_rounds Sample.world (Some "MyJob") 4).
Proof.
  apply (poller_has_no_timeout Trouble.env_never_completes
           (set_job_name "MyJob" AzureBatch_init) Sample.world).
  - intros k. reflexivity.
  - intros k H. inversion H as [| task tasks Hs _]. discriminate Hs.
Defined.

Lemma poller_raises_when_listing_fails_witness :
  wait_for_tasks_to_complete Trouble.env_listing_fails 4
    (set_job_name "MyJob" AzureBatch_init) Sample.world
  = (Raise (CallFailed (TaskList (Some "MyJob"))),
     record_call (after_rounds Sample.world (Some "MyJob") 1) (TaskList (Some "MyJob"))).
Proof.
  apply (poller_raises_when_listing_fails Trouble.env_listing_fails 4
           (set_job_name "MyJob" AzureBatch_init) Sample.world).
  exists 1%nat. split; [lia |]. split.
  - intros k Hk. assert (k = 0)%nat as -> by lia. split; [reflexivity |].
    intros H. inversion H as [| task tasks Hs _]. discriminate Hs.
  - repeat split.
Defined.

(** ** The phases of a run *)

Section Within.

Context {K : Type} (k : Event -> option K) (P : K -> Prop).
Variable env : Env.

Lemma one_within (ev : Event) (x : list K) :
  (forall y, k ev = Some y -> P y) -> one (omap k [ev]) x -> only P x.
Proof.
  intros H ->. simpl. destruct (k ev) as [y |]; repeat constructor. apply H. reflexivity.
Qed.

Lemma call_within {A} (ev : Event) (answer : list Event -> A) :
  (forall y, k ev = Some y -> P y) -> obeys k (only P) (call env ev answer).
Proof.
  intros H. eapply obeys_weaken; [apply obeys_call |].
  intros x. apply one_within, H.
Qed.

Lemma emit_within (ev : Event) :
  (forall y, k ev = Some y -> P y) -> obeys k (only P) (emit ev).
Proof.
  intros H. eapply obeys_weaken; [apply obeys_emit |].
  intros x. apply one_within, H.
Qed.

Lemma makedirs_within (path : string) :
  (forall y, k (Makedirs path) = Some y -> P y) -> obeys k (only P) (makedirs env path).
Proof.
  intros H. eapply obeys_weaken; [apply obeys_makedirs |].
  intros x. apply one_within, H.
Qed.

Lemma bind_within {A B} (m : M A) (f : A -> M B) :
  obeys k (only P) m ->
  (forall a, can_return m a -> obeys k (only P) (f a)) ->
  obeys k (only P) (bind m f).
Proof.
  intros Hm Hf. eapply obeys_weaken; [| apply only_cat].
  apply obeys_bind; [exact Hm | exact Hf | apply inh_only].
Qed.

Lemma silent_within {A} (m : M A) : obeys k (one []) m -> obeys k (only P) m.
Proof. intros H. eapply obeys_weaken; [exact H | apply only_nil]. Qed.

End Within.

Ltac within_leaf :=
  first
    [ apply silent_within;
      first [ apply obeys_ret | apply obeys_new_list | apply obeys_list_append
            | apply obeys_list_read | apply obeys_isdir | apply obeys_lower_of
            | apply obeys_BlockBlobService ]
    | apply call_within
    | apply emit_within
    | apply makedirs_within ].

Ltac within_chain :=
  repeat first
    [ within_leaf
    | apply bind_within; [ | intros ? ? ]
    | apply obeys_for_each; intros ? ].

Section PhasesOfOperations.

Variable env : Env.
Variable self : AzureBatch.

Variable j : string.
Hypothesis Hj : default EmptyString (job_name self) = j.


Lemma phase_of_input_container :
  String.eqb (lower env j +:+ "-input") (input_container_of env j) = true.
Proof. apply String.eqb_refl. Qed.

Lemma phase_of_output_container :
  String.eqb (lower env j +:+ "-output") (input_container_of env j) = false.
Proof.
  apply String.eqb_neq. intros H. symmetry in H. exact (input_is_not_output env j H).
Qed.

Ltac phase_facts :=
  intros ?; cbn [phase]; rewrite ?Hj;
  rewrite ?phase_of_input_container, ?phase_of_output_container;
  intros [= <-]; reflexivity.

Lemma upload_phase :
  obeys (phase (input_container_of env j)) (only (fun p => p = Staging)) (upload_input_to_blob_storage env self).
Proof.
  unfold upload_input_to_blob_storage, _create_resource_file.
  apply bind_within; [within_leaf | intros resource_files _].
  apply bind_within; [within_leaf | intros made _].
  apply bind_within; [within_leaf | intros a Ha]. apply can_return_lower_of in Ha. subst a. rewrite ?Hj.
  apply bind_within; [within_leaf; phase_facts | intros ? _].
  apply bind_within; [| intros ? _; within_leaf].
  apply obeys_for_each. intros input_request.
  apply bind_within; [| intros ? _].
  - destruct (Nat.eqb _ 1); [| within_leaf].
    apply obeys_for_each. intros file_to_upload.
    within_chain; phase_facts.
  - destruct (Nat.ltb 1 _); [| within_leaf].
    apply obeys_for_each. intros thing. apply obeys_for_each. intros file_to_upload.
    within_chain; try phase_facts.
    destruct (PyStr.is_empty _); within_leaf.
Qed.

Lemma create_task_phase input_files :
  obeys (phase (input_container_of env j)) (only (fun p => p = Provisioning)) (create_task env self input_files).
Proof.
  unfold create_task.
  apply bind_within; [within_leaf | intros made _].
  apply bind_within; [within_leaf | intros a Ha]. apply can_return_lower_of in Ha. subst a. rewrite ?Hj.
  within_chain; phase_facts.
Qed.

Lemma pool_and_job_phase :
  obeys (phase (input_container_of env j)) (only (fun p => p = Provisioning)) (create_pool env self)
  /\ obeys (phase (input_container_of env j)) (only (fun p => p = Provisioning)) (create_job env self)
  /\ obeys (phase (input_container_of env j)) (only (fun p => p = Teardown)) (delete_job env self)
  /\ obeys (phase (input_container_of env j)) (only (fun p => p = Teardown)) (delete_pool env self).
Proof.
  unfold create_pool, create_job, delete_job, delete_pool, call_.
  repeat split; apply call_within; phase_facts.
Qed.

Lemma wait_phase fuel :
  obeys (phase (input_container_of env j)) (only (fun p => p = Polling)) (wait_for_tasks_to_complete env fuel self).
Proof.
  unfold wait_for_tasks_to_complete. generalize false.
  induction fuel as [| fuel IH]; intros b; simpl.
  - destruct b; [within_leaf |]. apply silent_within.
    apply obeys_silent; intros; simpl; [reflexivity | discriminate].
  - destruct b; [within_leaf |].
    apply bind_within; [within_leaf; phase_facts | intros ? _].
    apply bind_within; [within_leaf; phase_facts | intros ? _]. apply IH.
Qed.

Lemma download_output_phase :
  obeys (phase (input_container_of env j)) (only (fun p => p = Teardown)) (download_output_files_and_delete_container env self).
Proof.
  unfold download_output_files_and_delete_container, download_container.
  apply bind_within; [within_leaf | intros a _].
  apply bind_within; [within_leaf | intros made _].
  apply bind_within; [| intros ? _; within_leaf; phase_facts].
  apply bind_within; [within_leaf; phase_facts | intros generator _].
  apply obeys_for_each. intros blob.
  destruct (PyStr.contains_char "/" (name blob));
    [| within_leaf; phase_facts].
  destruct (OsPath.split (name blob)) as [head tail].
  apply bind_within; [within_leaf | intros there _].
  destruct there; within_chain; phase_facts.
Qed.

Lemma delete_input_container_phase :
  obeys (phase (input_container_of env j)) (only (fun p => p = Teardown)) (delete_input_container env self).
Proof.
  unfold delete_input_container.
  apply bind_within; [within_leaf | intros a _].
  apply bind_within; [within_leaf | intros made _].
  within_leaf. phase_facts.
Qed.

End PhasesOfOperations.

Lemma only_repeat {K} (x : K) (l : list K) :
  only (fun y => y = x) l -> l = repeat x (length l).
Proof.
  induction 1 as [| y l Hy _ IH]; simpl; [reflexivity |]. rewrite Hy. f_equal. exact IH.
Qed.

Ltac then_ tac := eapply obeys_bind; [tac | intros ? _ | ].

Lemma parse_configuration_file_quiet {K} (k : Event -> option K) env config_file :
  k (ReadLines config_file) = None ->
  obeys k (one []) (parse_configuration_file env config_file).
Proof.
  intros Hk. unfold parse_configuration_file.
  eapply obeys_weaken.
  - eapply obeys_bind; [apply (obeys_call_as k []); simpl; rewrite Hk; reflexivity
                       | intros lines _ | ].
    + destruct (parse_configuration config_file lines) as [e | a] eqn:Hp.
      * apply obeys_raise. eapply parse_configuration_error, Hp.
      * apply obeys_ret.
    + inhabit.
  - intros x H. unlang. reflexivity.
Qed.

Lemma check_no_attributes_none_quiet {K} (k : Event -> option K) a :
  obeys k (one []) (check_no_attributes_none a).
Proof.
  unfold check_no_attributes_none.
  destruct (Nat.ltb 0 _); [apply obeys_raise; discriminate | apply obeys_ret].
Qed.

(** The phases of a whole run come in order. *)
Lemma main_phases env fuel args :
  obeys (phase (input_container_of env (configured_job_name env args))) phases_in_order
    (main env fuel args).
Proof.
  set (k := phase (input_container_of env (configured_job_name env args))).
  unfold main.
  eapply obeys_weaken.
  - then_ ltac:(apply (obeys_emit_as k (@nil Phase)); reflexivity).
    1: eapply obeys_bind; [apply parse_configuration_file_quiet; reflexivity | intros azurebatch Hab | ].
    1: apply can_return_parse in Hab.
    1: assert (Hj : default EmptyString (job_name azurebatch) = configured_job_name env args)
         by (unfold configured_job_name; rewrite Hab; reflexivity).
    1: destruct (pool_and_job_phase env azurebatch (configured_job_name env args))
         as (Hpool & Hjob & Hdj & Hdp).
    1: then_ ltac:(apply check_no_attributes_none_quiet).
    1: then_ ltac:(apply (obeys_emit_as k (@nil Phase)); reflexivity).
    1: then_ ltac:(apply (upload_phase env azurebatch _ Hj)).
    1: then_ ltac:(apply (obeys_emit_as k (@nil Phase)); reflexivity).
    1: then_ ltac:(apply Hpool).
    1: then_ ltac:(apply Hjob).
    1: then_ ltac:(apply (create_task_phase env azurebatch _ Hj)).
    1: then_ ltac:(apply (wait_phase env azurebatch)).
    1: then_ ltac:(apply (obeys_emit_as k (@nil Phase)); reflexivity).
    1: then_ ltac:(apply Hdj).
    1: then_ ltac:(apply Hdp).
    1: then_ ltac:(apply (obeys_emit_as k (@nil Phase)); reflexivity).
    1: then_ ltac:(apply obeys_if;
                  [apply (download_output_phase env azurebatch) | apply obeys_ret]).
    1: apply (delete_input_container_phase env azurebatch).
    all: inhabit.
  - intros x H. unlang.
    repeat match goal with
           | H : only _ ?l |- _ => apply only_repeat in H; rewrite H; clear H
           end.
    match goal with
    | H : (if download_output_files args then _ else _) ?l |- _ =>
        assert (Hl : l = repeat Teardown (length l))
          by (destruct (download_output_files args);
              [apply only_repeat, H | rewrite H; reflexivity]);
        rewrite Hl; clear H Hl
    end.
    match goal with
    | |- phases_in_order (repeat Staging ?a ++ repeat Provisioning ?b1 ++
           repeat Provisioning ?b2 ++ repeat Provisioning ?b3 ++ repeat Polling ?c ++
           repeat Teardown ?d1 ++ repeat Teardown ?d2 ++ repeat Teardown ?d3
           ++ repeat Teardown ?d4) =>
        exists a, (b1 + (b2 + b3))%nat, c, (d1 + (d2 + (d3 + d4)))%nat
    end.
    rewrite !repeat_app, <- !app_assoc. reflexivity.
Qed.

Lemma take_repeat {A} (x : A) (n m : nat) : take n (repeat x m) = repeat x (Nat.min n m).
Proof.
  revert m. induction n as [| n IH]; intros [| m]; simpl; try reflexivity.
  f_equal. apply IH.
Qed.

(** A beginning of a sequence of phases in order is in order. *)
Lemma phases_in_order_prefix (x : list Phase) : pref phases_in_order x -> phases_in_order x.
Proof.
  intros (y & a & b & c & d & H).
  assert (Hx : x = take (length x) (x ++ y)) by (rewrite take_app_length; reflexivity).
  rewrite H in Hx. rewrite !take_app, !take_repeat in Hx.
  rewrite Hx. do 4 eexists. reflexivity.
Qed.

Lemma teardown_step_phase (input_container : string) (ev : Event) :
  teardown_step ev = None <-> phase input_container ev <> Some Teardown.
Proof.
  destruct ev; simpl; try (destruct (String.eqb _ _));
    split; intros H; try discriminate; try reflexivity; try congruence.
Qed.

Lemma no_teardown_phase_no_step (input_container : string) (t : list Event) :
  ~ In Teardown (omap (phase input_container) t) -> omap teardown_step t = [].
Proof.
  induction t as [| e t IH]; [reflexivity |]. intros Hno.
  assert (He : teardown_step e = None).
  { apply (teardown_step_phase input_container). intros Hq.
    apply Hno. simpl. rewrite Hq. left. reflexivity. }
  simpl. rewrite He. apply IH. intros Hin. apply Hno. simpl.
  destruct (phase input_container e); [right |]; exact Hin.
Qed.

(** Once a run is in its teardown, nothing but teardown follows. *)
Lemma no_step_back (before rest : list Phase) (ph : Phase) (l y : list Phase) :
  ~ In Teardown before ->
  (forall q, In q rest -> q = Teardown) ->
  ph <> Teardown ->
  l ++ ph :: y = before ++ rest ->
  ~ In Teardown l.
Proof.
  revert l. induction before as [| b before IH]; intros l Hb Hrest Hph H.
  - simpl in H. exfalso. apply Hph, Hrest. rewrite <- H. apply in_elt.
  - destruct l as [| c l]; [intros []|].
    simpl in H. injection H as -> H. intros [Hc | Hl].
    + apply Hb. left. exact Hc.
    + revert Hl. apply IH; auto. intros Hin. apply Hb. right. exact Hin.
Qed.

(** X7: the calls of every run come in four phases, in this order: staging
    (the input container and the uploads), provisioning (pool, job,
    output container, task), polling, teardown.  So every upload is done
    before the pool is asked for, the task is submitted before the first
    poll, and nothing is deleted or downloaded before the poller is done. *)
Theorem run_phases_in_order env fuel args w :
  let run := main env fuel args w in
  let j := configured_job_name env args in
  exists t,
    trace (snd run) = trace w ++ t
    /\ phases_in_order (omap (phase (input_container_of env j)) t).
Proof.
  intros run j.
  destruct (main_phases env fuel args w (fst run) (snd run) (surjective_pairing _))
    as (t & Ht & Hpref & _).
  exists t. split; [exact Ht |]. apply phases_in_order_prefix, Hpref.
Qed.

Lemma run_phases_in_order_witness :
  phases_in_order
    (omap (phase (input_container_of Sample.env (configured_job_name Sample.env Sample.args)))
       (trace (snd (main Sample.env 3 Sample.args Sample.world)))).
Proof.
  destruct (run_phases_in_order Sample.env 3 Sample.args Sample.world) as (t & Ht & Hp).
  change (trace Sample.world ++ t) with t in Ht. rewrite Ht. exact Hp.
Defined.

Example sample_run_phases :
  omap (phase "myjob-input") (trace (snd (main Sample.env 3 Sample.args Sample.world)))
  = repeat Staging 3 ++ repeat Provisioning 5 ++ repeat Polling 4 ++ repeat Teardown 8.
Proof. vm_compute. reflexivity. Qed.

(** X8: a run in which a call of staging, provisioning or polling fails
    ends there, without a single teardown step: what has been created by
    then (containers, blobs, pool, job) is not deleted. *)
Theorem failure_before_teardown_deletes_nothing env fuel args w ev ph :
  let run := main env fuel args w in
  let j := configured_job_name env args in
  fst run = Raise (CallFailed ev) ->
  phase (input_container_of env j) ev = Some ph ->
  ph <> Teardown ->
  exists t,
    trace (snd run) = trace w ++ t
    /\ omap teardown_step t = [].
Proof.
  intros run j Hfail Hph Hnot.
  destruct (main_phases env fuel args w (fst run) (snd run) (surjective_pairing _))
    as (t & Ht & (y & a & b & c & d & Hy) & _ & Hlast).
  exists t. split; [exact Ht |].
  destruct (Hlast ev Hfail) as [t0 Ht0]. subst t.
  rewrite omap_app in Hy. rewrite omap_app. cbn [omap list_omap] in Hy. fold j in Hy. rewrite Hph in Hy.
  rewrite <- app_assoc in Hy. simpl in Hy.
  assert (Hno : ~ In Teardown (omap (phase (input_container_of env j)) t0)).
  { apply (no_step_back (repeat Staging a ++ repeat Provisioning b ++ repeat Polling c)
             (repeat Teardown d) ph _ y); auto.
    - rewrite !in_app_iff. intros [H | [H | H]]; apply repeat_spec in H; discriminate H.
    - intros q Hq. apply repeat_spec in Hq. exact Hq.
    - rewrite Hy, <- !app_assoc. reflexivity. }
  assert (Hev : teardown_step ev = None).
  { apply (teardown_step_phase (input_container_of env j)). rewrite Hph. congruence. }
  cbn [omap list_omap]. rewrite Hev. simpl. rewrite app_nil_r.
  apply (no_teardown_phase_no_step (input_container_of env j)), Hno.
Qed.

Lemma failure_before_teardown_deletes_nothing_witness :
  exists t,
    trace (snd (main Trouble.env_pool_fails 3 Sample.args Sample.world))
    = trace Sample.world ++ t
    /\ omap teardown_step t = [].
Proof.
  apply (failure_before_teardown_deletes_nothing Trouble.env_pool_fails 3 Sample.args
           Sample.world
           (PoolAdd {| pool_id := Some "MyJob";
                       image_reference := {| publisher := "Canonical"; offer := "UbuntuServer";
                                             sku := "16.04-LTS"; version := "latest" |};
                       node_agent_sku_id := "batch.node.ubuntu 16.04";
                       pool_vm_size := "Standard_D16s_v3";
                       target_dedicated_nodes := 1;
                       target_low_priority_nodes := 0 |})
           Provisioning).
  - vm_compute. reflexivity.
  - reflexivity.
  - discriminate.
Defined.

Example sample_run_pool_fails :
  omap created
    (trace (snd (main Trouble.env_pool_fails 3 Sample.args Sample.world)))
  = [Container "myjob-input"; Pool].
Proof. vm_compute. reflexivity. Qed.

(** X9: with a configuration file that cannot be read, does not parse or
    leaves a required attribute unset, the run raises after reading the
    file: it has made no call to a service, so there is nothing to tear
    down. *)
Theorem invalid_configuration_stops_before_any_call env fuel args w :
  let config_file := configuration_file args in
  (forall azurebatch,
     parse_configuration config_file (file_lines env config_file) = inr azurebatch ->
     missing_attributes azurebatch <> []) ->
  exists e,
    main env fuel args w
    = (Raise e,
       record_call
         (record_call w (LogInfo ("Reading in configuration file " +:+ config_file +:+ "...")))
         (ReadLines config_file)).
Proof.
  intros config_file Hbad. unfold main, parse_configuration_file.
  unfold bind at 1. unfold emit at 1. unfold bind at 1. unfold bind at 1. unfold call at 1.
  cbn [trace record_call]. fold config_file.
  destruct (raises env _ (ReadLines config_file)); [eexists; reflexivity |].
  destruct (parse_configuration config_file (file_lines env config_file)) as [e | a] eqn:Hp.
  - exists e. reflexivity.
  - unfold ret at 1. unfold bind at 1. unfold check_no_attributes_none.
    specialize (Hbad a eq_refl).
    destruct (missing_attributes a) as [| m ms]; [contradiction |].
    eexists. reflexivity.
Qed.

Lemma invalid_configuration_stops_before_any_call_witness :
  exists e,
    main Trouble.env_incomplete_file 3 Sample.args Sample.world
    = (Raise e,
       record_call
         (record_call Sample.world (LogInfo "Reading in configuration file job.cfg..."))
         (ReadLines "job.cfg")).
Proof.
  apply (invalid_configuration_stops_before_any_call
           Trouble.env_incomplete_file 3 Sample.args Sample.world).
  intros a Ha. vm_compute in Ha. injection Ha as <-. vm_compute. discriminate.
Defined.

Example sample_incomplete_file :
  fst (main Trouble.env_incomplete_file 3 Sample.args Sample.world)
  = Raise (AttributeError_missing ["COMMAND"; "OUTPUT"]).
Proof. vm_compute. reflexivity. Qed.

(** ** Staging *)



Section Staging.

Variable env : Env.
Hypothesis no_failure : forall h ev, raises env h ev = false.







End Staging.

(** Without the name of a storage account, staging ends where it makes
    the storage client: it has made its list and no call. *)
Lemma upload_without_account env self w :
  account_given self = false ->
  upload_input_to_blob_storage env self w
  = (Raise ValueError_missing_account,
     {| trace := trace w; heap := heap w ++ [[]]; dirs := dirs w |}).
Proof.
  intros Hacct. unfold upload_input_to_blob_storage.
  unfold bind at 1. unfold new_list at 1.
  unfold bind at 1. rewrite BlockBlobService_refused by exact Hacct. reflexivity.
Qed.

Example sample_upload_without_account :
  exists azurebatch,
    parse_configuration "job.cfg" (Sample.config_lines ++ ["STORAGE_ACCOUNT_NAME:="])
    = inr azurebatch
    /\ missing_attributes azurebatch = []
    /\ fst (upload_input_to_blob_storage Sample.env azurebatch Sample.world)
       = Raise ValueError_missing_account.
Proof. eexists. split; [vm_compute; reflexivity |]. split; vm_compute; reflexivity. Qed.



(** X11: staging names each blob by the base name of the file it uploads
    (two files with one base name share a blob) and asks only for read
    tokens; task creation asks only for a write token; every token is
    for two hours.  This holds for every run, failing or not. *)
Theorem tokens_and_blob_names env self :
  emits (grants READ) (upload_input_to_blob_storage env self)
  /\ (forall input_files, emits (grants WRITE) (create_task env self input_files)).
Proof.
  split; [| intros input_files]; apply emits_of_obeys.
  - unfold upload_input_to_blob_storage, _create_resource_file.
    apply bind_only; [only_leaf | intros resource_files _].
    apply bind_only; [only_leaf | intros made _].
    apply bind_only; [apply silent_only, obeys_lower_of | intros a _].
    apply bind_only; [only_leaf | intros ? _].
    apply bind_only; [| intros ? _; only_leaf].
    apply obeys_for_each. intros input_request.
    apply bind_only; [| intros ? _].
    + destruct (Nat.eqb _ 1); [| only_leaf].
      apply obeys_for_each. intros file_to_upload. only_chain.
    + destruct (Nat.ltb 1 _); [| only_leaf].
      apply obeys_for_each. intros thing. apply obeys_for_each. intros file_to_upload.
      only_chain. destruct (PyStr.is_empty _); only_leaf.
  - unfold create_task.
    apply bind_only; [only_leaf | intros made _].
    apply bind_only; [apply silent_only, obeys_lower_of | intros a _].
    only_chain.
Qed.

(** ** The outputs of the task *)




Example sample_task_outputs :
  prepare_output_resource_files
    (append_output "out/*.json logs/run.log" AzureBatch_init) "URL"
  = [ {| file_pattern := "out/*.json"; container_url := "URL";
         destination_path := Some "out"; upload_condition := task_success |};
      {| file_pattern := "logs/run.log"; container_url := "URL";
         destination_path := Some "logs"; upload_condition := task_success |};
      {| file_pattern := "std*.txt"; container_url := "URL";
         destination_path := None; upload_condition := task_success |} ].
Proof. reflexivity. Qed.
